(** * The duplicate-blocking upload worker: scope resolution, federated
      search and policy decision

    A shallow embedding of the [BeforeUpload] worker (configuration parsing,
    relevance of each JPD/repo/path to an upload, one AQL existence query per
    relevant scope, and the mapping of the finding to an upload status),
    followed by the properties the specification states about it.

    Conventions.  A JavaScript string is a [string]: each [ascii] stands for
    one code unit.  [undefined] is [None] of an [option].  A thrown exception
    is the left injection of a sum.  What a log call writes is read by no
    code and is left out; the conversion of its arguments to a string is
    kept wherever it can throw. *)

From Stdlib Require Import String Ascii List Bool Arith Lia Permutation.
Import ListNotations.
Local Open Scope string_scope.
Local Open Scope list_scope.
Set Warnings "-register-all".

(** ** Exceptions and the error monad *)

Inductive Exception : Type :=
| SyntaxError   (* JSON.parse on malformed text *)
| TypeError     (* property read on null, call of a non-function,
                     conversion of an object that cannot be converted *)
| RequestError. (* a rejected HTTP request *)

Definition result (A : Type) : Type := (Exception + A)%type.

Definition ret {A : Type} (a : A) : result A := inr a.
Definition throw {A : Type} (e : Exception) : result A := inl e.

Definition bind {A B : Type} (m : result A) (k : A -> result B) : result B :=
  match m with
  | inl e => inl e
  | inr a => k a
  end.

Notation "x <- m ;; k" := (bind m (fun x => k))
  (at level 61, m at next level, right associativity).

(** [try { body } catch (e) { handler }] *)
Definition try_catch {A : Type} (body : result A) (handler : Exception -> result A)
  : result A :=
  match body with
  | inl e => handler e
  | inr a => inr a
  end.

(** [Array.prototype.map] with a callback that may throw: elements are
    visited in order and the first exception aborts the whole map. *)
Fixpoint mapM {A B : Type} (f : A -> result B) (l : list A) : result (list B) :=
  match l with
  | [] => ret []
  | a :: rest =>
      b <- f a ;;
      bs <- mapM f rest ;;
      ret (b :: bs)
  end.

(** [Array.prototype.some] with a callback that may throw: stops at the first
    element the callback accepts. *)
Fixpoint someM {A : Type} (f : A -> result bool) (l : list A) : result bool :=
  match l with
  | [] => ret false
  | a :: rest =>
      b <- f a ;;
      if b then ret true else someM f rest
  end.

(** [.filter(Boolean)] on an array whose elements are objects or [null]. *)
Fixpoint filterBoolean {A : Type} (l : list (option A)) : list A :=
  match l with
  | [] => []
  | Some a :: rest => a :: filterBoolean rest
  | None :: rest => filterBoolean rest
  end.

(** ** JavaScript strings and JSON values *)

Module JS.

(** [s.startsWith(p)] *)
Definition startsWith (s p : string) : bool := String.prefix p s.

(** [s.endsWith(p)] *)
Definition endsWith (s p : string) : bool :=
  let n := String.length s in
  let m := String.length p in
  Nat.leb m n && String.eqb (substring (n - m) m s) p.

(** [s.split(sep)] for a one-character separator; never empty. *)
Fixpoint split (sep : ascii) (s : string) : list string :=
  match s with
  | EmptyString => [EmptyString]
  | String c rest =>
      if Ascii.eqb c sep then EmptyString :: split sep rest
      else match split sep rest with
           | [] => [String c EmptyString]
           | seg :: segs => String c seg :: segs
           end
  end.

(** [segments.join(sep)] on an array of strings. *)
Definition join (sep : string) (segments : list string) : string :=
  String.concat sep segments.

(** Truthiness of a string: every string but the empty one. *)
Definition truthyString (s : string) : bool := negb (String.eqb s "").

(** A number, through the two observations the worker makes of one. *)
Record Number : Type := mkNumber {
  num_truthy : bool;      (* neither zero nor NaN *)
  num_toString : string   (* its decimal rendering *)
}.

(** The values [JSON.parse] produces.  An object keeps its members in
    document order; a later member with the same key wins. *)
Inductive json : Type :=
| JNull
| JBool (b : bool)
| JNum (n : Number)
| JStr (s : string)
| JArr (items : list json)
| JObj (members : list (string * json)).

(** A JavaScript value here is a JSON value or [undefined]. *)
Definition value : Type := option json.

Definition truthyJson (v : json) : bool :=
  match v with
  | JNull => false
  | JBool b => b
  | JNum n => num_truthy n
  | JStr s => truthyString s
  | JArr _ => true
  | JObj _ => true
  end.

Definition truthy (v : value) : bool :=
  match v with
  | None => false
  | Some j => truthyJson j
  end.

(** [typeof v === 'object'] (true of [null] and of arrays). *)
Definition typeofObject (v : json) : bool :=
  match v with
  | JNull | JArr _ | JObj _ => true
  | _ => false
  end.

(** Own member of an object. *)
Fixpoint lookup (k : string) (members : list (string * json)) : value :=
  match members with
  | [] => None
  | (k', v) :: rest =>
      match lookup k rest with
      | Some w => Some w
      | None => if String.eqb k k' then Some v else None
      end
  end.

(** [v.prop] for the property names the worker reads from parsed JSON
    ([jpds], [action], [url], [repos], [name], [paths]): none of them exists
    on a string, number, boolean or array, and reading from [null] throws. *)
Definition get (v : json) (prop : string) : result value :=
  match v with
  | JNull => throw TypeError
  | JObj members => ret (lookup prop members)
  | _ => ret None
  end.

(** The string a value contributes to a string concatenation
    ([x + "*"], ['...' + x]) or to a template literal.  A parsed object is
    converted by [Object.prototype.toString] unless it has a member of its
    own called [toString]: that member is not a function, no conversion is
    left, and the conversion throws.  An array is the join of its elements'
    conversions, [null] counting as the empty string. *)
Fixpoint toString (v : json) : result string :=
  match v with
  | JNull => ret "null"
  | JBool true => ret "true"
  | JBool false => ret "false"
  | JNum n => ret (num_toString n)
  | JStr s => ret s
  | JArr items =>
      parts <- (fix elements (l : list json) : result (list string) :=
                  match l with
                  | [] => ret []
                  | JNull :: rest =>
                      ps <- elements rest ;;
                      ret ("" :: ps)
                  | x :: rest =>
                      p <- toString x ;;
                      ps <- elements rest ;;
                      ret (p :: ps)
                  end) items ;;
      ret (join "," parts)
  | JObj members =>
      match lookup "toString" members with
      | Some _ => throw TypeError
      | None => ret "[object Object]"
      end
  end.

Definition valueToString (v : value) : result string :=
  match v with
  | None => ret "undefined"
  | Some j => toString j
  end.

End JS.
Import JS.

(** ** Path helpers *)

(** [segments.pop()]: the last element, [undefined] on an empty array. *)
Definition pop (segments : list string) : option string :=
  List.last (map Some segments) None.

Definition getFileNameFromPath (fullPath : string) : string :=
  if negb (truthyString fullPath) then ""
  else
    let segments := split "/" fullPath in
    match pop segments with
    | Some s => if truthyString s then s else ""
    | None => ""
    end.

Definition getDirectoryPathFromPath (fullPath : string) : string :=
  if negb (truthyString fullPath) then ""
  else
    let segments := split "/" fullPath in
    if Nat.leb (List.length segments) 1 then ""
    else join "/" (removelast segments).

(** ** Configuration model *)

Record RepoConfig : Type := mkRepoConfig {
  name : json;
  paths : value
}.

Record JPDConfig : Type := mkJPDConfig {
  url : json;
  repos : list RepoConfig
}.

Record Config : Type := mkConfig {
  jpds : list JPDConfig;
  action : value
}.

(** ** Requests and responses *)

(** Modelled from the spec: the worker's [types.ts] is not among the sources.
    The upload's identity is the pair ([key], [path]); the other members are
    those the tests build. *)
Record RepoPath : Type := mkRepoPath {
  key : string;
  path : string;
  id : string;
  isRoot : bool;
  isFolder : bool
}.

(** Modelled from the spec: the part of the request metadata the worker reads. *)
Record UploadMetadata : Type := mkUploadMetadata {
  repoPath : option RepoPath
}.

(** Modelled from the spec: the request; [None] stands for a missing member. *)
Record BeforeUploadRequest : Type := mkBeforeUploadRequest {
  metadata : option UploadMetadata
}.

(** Modelled from the spec: the statuses of the upload gate response. *)
Inductive UploadStatus : Type :=
| UPLOAD_UNSPECIFIED
| UPLOAD_PROCEED
| UPLOAD_STOP
| UPLOAD_WARN.

(** Modelled from the spec: a response header value. *)
Definition Header : Type := string.

(** Modelled from the spec: the upload gate response. *)
Record BeforeUploadResponse : Type := mkBeforeUploadResponse {
  status : UploadStatus;
  message : string;
  modifiedRepoPath : option RepoPath;
  headers : list (string * Header)
}.

(** ** Remote search *)

(** The text of an AQL query is
    [items.find(<criteria>).include("repo","path","name").limit(<n>)];
    it is kept here as its three parts. *)
Record AqlQuery : Type := mkAqlQuery {
  find : json;
  include : list string;
  limit : option nat
}.

(** An item of [queryResponse.data.results]. *)
Record FoundItem : Type := mkFoundItem {
  item_repo : string;
  item_path : string;
  item_name : string
}.

(** What [axios.post] does for one search job: it rejects (or resolves to
    something without [data]), or resolves to a response whose
    [data.results] is a list of items or is missing. *)
Inductive PostOutcome : Type :=
| Rejected
| Resolved (results : option (list FoundItem)).

(** One scope to search: a JPD with, or without, one of its repo scopes. *)
Definition ScopeMatch : Type := (JPDConfig * option RepoConfig)%type.

(** ** Vocabulary of the statements *)

(** The conjuncts of a query's [$and]. *)
Definition criteriaOf (q : AqlQuery) : list json :=
  match find q with
  | JObj members =>
      match lookup "$and" members with
      | Some (JArr criteria) => criteria
      | _ => []
      end
  | _ => []
  end.

(** Whether character [c] occurs in [s]. *)
Fixpoint contains (c : ascii) (s : string) : bool :=
  match s with
  | EmptyString => false
  | String c' rest => Ascii.eqb c' c || contains c rest
  end.

(** The path rule as the specification words it: [d] equals some root or
    starts with that root followed by a slash. *)
Definition specPathRule (roots : list string) (d : string) : Prop :=
  exists root, In root roots /\ (d = root \/ String.prefix (root ++ "/") d = true).

(** The test [pathMatches] makes of one root, on strings. *)
Definition rootCovers (uploadDir root : string) : bool :=
  String.eqb uploadDir root
  || startsWith uploadDir (if endsWith root "/" then root else root ++ "/").

(** The outcomes with that of job [i] replaced by an empty result list. *)
Definition asNoMatch (outcomes : nat -> PostOutcome) (i : nat) : nat -> PostOutcome :=
  fun j => if Nat.eqb j i then Resolved (Some []) else outcomes j.

(** The identity a request carries, whether or not it passes validation. *)
Definition identityOf (data : option BeforeUploadRequest) : option RepoPath :=
  match data with
  | Some d =>
      match metadata d with
      | Some md => repoPath md
      | None => None
      end
  | None => None
  end.

(** A request that carries the identity ([k], [p]). *)
Definition uploadOf (k p : string) : option BeforeUploadRequest :=
  Some (mkBeforeUploadRequest
          (Some (mkUploadMetadata (Some (mkRepoPath k p (k ++ ":" ++ p) false false))))).

(** ** Sample inputs *)

Module Sample.

(** [{ jpds: [{ url: "a", repos: [{ name: "r", paths: ["immutable"] }] }],
      action: "block" }] *)
Definition scopedDoc : json :=
  JObj [("jpds",
         JArr [JObj [("url", JStr "a");
                     ("repos", JArr [JObj [("name", JStr "r");
                                           ("paths", JArr [JStr "immutable"])]])]]);
        ("action", JStr "block")].

(** [{ jpds: [{ url: "a", repos: [] }], action: "block" }] *)
Definition allReposDoc : json :=
  JObj [("jpds", JArr [JObj [("url", JStr "a"); ("repos", JArr [])]]);
        ("action", JStr "block")].

(** [{ jpds: [{ url: "a.jfrog.io" }], action: "block" }] *)
Definition noReposDoc : json :=
  JObj [("jpds", JArr [JObj [("url", JStr "a.jfrog.io")]]);
        ("action", JStr "block")].

(** A [JSON.parse] under which the configuration text denotes [doc]. *)
Definition parsesTo (doc : json) : string -> result json := fun _ => ret doc.

(** A [JSON.parse] that rejects the text. *)
Definition unparsable : string -> result json := fun _ => throw SyntaxError.

(** No object has a [length]. *)
Definition noLength : list (string * json) -> bool := fun _ => false.

(** [{ jpds: [{ url: "first.jfrog.io",  repos: [{ name: "test-repo", paths: ["test/path"] }] },
             { url: "second.jfrog.io", repos: [{ name: "test-repo", paths: ["test/path"] }] }],
      action: "block" }] *)
Definition twoTargetsDoc : json :=
  JObj [("jpds",
         JArr [JObj [("url", JStr "first.jfrog.io");
                     ("repos", JArr [JObj [("name", JStr "test-repo");
                                           ("paths", JArr [JStr "test/path"])]])];
               JObj [("url", JStr "second.jfrog.io");
                     ("repos", JArr [JObj [("name", JStr "test-repo");
                                           ("paths", JArr [JStr "test/path"])]])]]);
        ("action", JStr "block")].

(** [{ jpds: [{ url: "test.jfrog.io",
               repos: [{ name: "test-repo", paths: ["path1", "path2"] }, "whole-repo"] }],
      action: "warn" }] *)
Definition multiPathDoc : json :=
  JObj [("jpds",
         JArr [JObj [("url", JStr "test.jfrog.io");
                     ("repos", JArr [JObj [("name", JStr "test-repo");
                                           ("paths", JArr [JStr "path1"; JStr "path2"])];
                                     JStr "whole-repo"])]]);
        ("action", JStr "warn")].

Definition jpdA : JPDConfig := mkJPDConfig (JStr "a") [].

Definition testHit : FoundItem := mkFoundItem "test-repo" "test/path" "file.txt".

(** The first request returns [testHit], every other one an empty list. *)
Definition firstHits : nat -> PostOutcome :=
  fun i => match i with
           | 0 => Resolved (Some [testHit])
           | _ => Resolved (Some [])
           end.

Definition hit : FoundItem := mkFoundItem "r" "immutable/x" "file.txt".

(** The repo scope and the JPD of [scopedDoc], and its configuration with a
    second, bare repo. *)
Definition scopedRepo : RepoConfig :=
  mkRepoConfig (JStr "r") (Some (JArr [JStr "immutable"])).

Definition scopedJPD : JPDConfig := mkJPDConfig (JStr "a") [scopedRepo].

Definition twoRepoConfig : Config :=
  mkConfig [mkJPDConfig (JStr "a") [scopedRepo; mkRepoConfig (JStr "whole") None]]
           (Some (JStr "block")).

(** The query made for [scopedRepo] and a file [file.txt]. *)
Definition scopedQuery : AqlQuery :=
  mkAqlQuery
    (JObj [("$and",
            JArr [JObj [("repo", JStr "r")];
                  JObj [("path", JObj [("$match", JStr "immutable*")])];
                  JObj [("name", JObj [("$match", JStr "file.txt")])]])])
    ["repo"; "path"; "name"] (Some 1).

(** [{ jpds: [{ url: "a", repos: [] }, null], action: "block" }] *)
Definition nullEntryDoc : json :=
  JObj [("jpds", JArr [JObj [("url", JStr "a"); ("repos", JArr [])]; JNull]);
        ("action", JStr "block")].

(** [{ jpds: [{ url: "a", repos: [] }], action: { toString: 1 } }] *)
Definition unconvertibleActionDoc : json :=
  JObj [("jpds", JArr [JObj [("url", JStr "a"); ("repos", JArr [])]]);
        ("action", JObj [("toString", JNum (mkNumber true "1"))])].

(** [{ jpds: [{ url: { toString: 1 }, repos: [] }], action: "block" }] *)
Definition unconvertibleUrlDoc : json :=
  JObj [("jpds", JArr [JObj [("url", JObj [("toString", JNum (mkNumber true "1"))]);
                             ("repos", JArr [])]]);
        ("action", JStr "block")].

(** The two JPDs of [twoTargetsDoc]. *)
Definition firstJPD : JPDConfig :=
  mkJPDConfig (JStr "first.jfrog.io")
              [mkRepoConfig (JStr "test-repo") (Some (JArr [JStr "test/path"]))].

Definition secondJPD : JPDConfig :=
  mkJPDConfig (JStr "second.jfrog.io")
              [mkRepoConfig (JStr "test-repo") (Some (JArr [JStr "test/path"]))].

End Sample.

Section Worker.

(** ** Built-ins taken as parameters *)

(** [JSON.parse]: the parsed value, or a [SyntaxError]. *)
Variable JSON_parse : string -> result json.

(** What [o.length > 0] and [o.length === 1] evaluate to on a plain object
    [o] given by its members (JavaScript decides both from an own member
    called [length], if there is one, through its numeric conversions; the
    comparison throws when that member cannot be converted, which
    [pathCriteria] tests first). *)
Variable objectLengthPositive : list (string * json) -> bool.
Variable objectLengthIsOne : list (string * json) -> bool.

(** ** [Config]: the constructor *)

(** The callback of [jpd.repos.map]: a bare name, an object with a truthy
    [name], or [null] for anything else. *)
Definition normalizeRepo (repo : json) : result (option RepoConfig) :=
  match repo with
  | JStr s => ret (Some (mkRepoConfig (JStr s) None))
  | _ =>
      if typeofObject repo then
        n <- get repo "name" ;;
        match n with
        | Some nm =>
            if truthyJson nm then
              p <- get repo "paths" ;;
              ret (Some (mkRepoConfig nm p))
            else ret None
        | None => ret None
        end
      else ret None
  end.

(** The callback of [rawJSON.jpds.map]: an object with a truthy [url] and an
    array [repos], or [null] for anything else. *)
Definition normalizeJPD (jpd : json) : result (option JPDConfig) :=
  if typeofObject jpd then
    u <- get jpd "url" ;;
    match u with
    | Some u' =>
        if truthyJson u' then
          r <- get jpd "repos" ;;
          match r with
          | Some (JArr rs) =>
              rs' <- mapM normalizeRepo rs ;;
              ret (Some (mkJPDConfig u' (filterBoolean rs')))
          | _ => ret None
          end
        else ret None
    | None => ret None
    end
  else ret None.

Definition defaultConfig : Config := mkConfig [] (Some (JStr "warn")).

(** The [try] block of the constructor. *)
Definition Config_try (rawJSONString : string) : result Config :=
  if truthyString rawJSONString then
    rawJSON <- JSON_parse rawJSONString ;;
    j <- get rawJSON "jpds" ;;
    js <- match j with
          | Some (JArr entries) =>
              entries' <- mapM normalizeJPD entries ;;
              ret (filterBoolean entries')
          | _ => ret []
          end ;;
    a <- get rawJSON "action" ;;
    ret (mkConfig js a)
  else ret defaultConfig.

(** [new Config(rawJSONString)] *)
Definition Config_constructor (rawJSONString : string) : result Config :=
  try_catch (Config_try rawJSONString) (fun _ => ret defaultConfig).

Definition getJPDs (config : Config) : list JPDConfig := jpds config.

(** ** Which scopes are relevant to an upload directory *)

(** The callback of [repoConfig.paths.some]. *)
Definition pathMatches (uploadDir : string) (configPath : json) : result bool :=
  match configPath with
  | JStr p =>
      ret (String.eqb uploadDir p
           || startsWith uploadDir (if endsWith p "/" then p else p ++ "/"))
  | _ => throw TypeError
  end.

(** Whether the inner loop pushes [{ jpd, repoConfig }]. *)
Definition repoRelevant (uploadDir : string) (repoConfig : RepoConfig) : result bool :=
  match paths repoConfig with
  | Some (JArr (p :: ps)) => someM (pathMatches uploadDir) (p :: ps)
  | _ => ret true
  end.

(** The inner loop over [jpd.repos]. *)
Fixpoint relevantRepos (jpd : JPDConfig) (uploadDir : string)
         (rs : list RepoConfig) : result (list ScopeMatch) :=
  match rs with
  | [] => ret []
  | repoConfig :: rest =>
      matches <- repoRelevant uploadDir repoConfig ;;
      more <- relevantRepos jpd uploadDir rest ;;
      ret (if matches then (jpd, Some repoConfig) :: more else more)
  end.

(** The outer loop over [configJPDs]: the final [relevantJPDs] array. *)
Fixpoint relevantJPDs (configJPDs : list JPDConfig) (uploadDir : string)
  : result (list ScopeMatch) :=
  match configJPDs with
  | [] => ret []
  | jpd :: rest =>
      here <- match repos jpd with
              | [] => ret [(jpd, None)]
              | rs => relevantRepos jpd uploadDir rs
              end ;;
      more <- relevantJPDs rest uploadDir ;;
      ret (here ++ more)
  end.

(** ** [findInstance]: the query *)

Definition repoCriteria (targetRepos : list json) : list json :=
  match targetRepos with
  | [] => []
  | [r] => [JObj [("repo", r)]]
  | _ => [JObj [("$or", JArr (map (fun repoName => JObj [("repo", repoName)])
                                 targetRepos))]]
  end.

(** [{ "path": { "$match": p + "*" } }] *)
Definition pathMatchClause (p : value) : result json :=
  pattern <- valueToString p ;;
  ret (JObj [("path", JObj [("$match", JStr (pattern ++ "*"))])]).

(** [{ "path": filePath ? filePath : "." }] *)
Definition ownPathClause (filePath : string) : json :=
  JObj [("path", JStr (if truthyString filePath then filePath else "."))].

Definition pathCriteria (filePath : string) (pathsToSearch : value)
  : result (list json) :=
  match pathsToSearch with
  | None => ret [ownPathClause filePath]
  | Some v =>
      if negb (truthyJson v) then ret [ownPathClause filePath]
      else
        match v with
        | JArr [] => ret [ownPathClause filePath]
        | JArr [p] =>
            clause <- pathMatchClause (Some p) ;;
            ret [clause]
        | JArr ps =>
            pathOrClauses <- mapM (fun p => pathMatchClause (Some p)) ps ;;
            ret [JObj [("$or", JArr pathOrClauses)]]
        | JStr s =>
            (* a one-character string is its own element 0; a longer one
               has no [map] *)
            if Nat.eqb (String.length s) 1 then
              clause <- pathMatchClause (Some (JStr s)) ;;
              ret [clause]
            else throw TypeError
        | JObj members =>
            (* [pathsToSearch.length > 0] converts the member [length] *)
            _ <- valueToString (lookup "length" members) ;;
            if objectLengthPositive members then
              if objectLengthIsOne members then
                clause <- pathMatchClause (lookup "0" members) ;;
                ret [clause]
              else throw TypeError
            else ret [ownPathClause filePath]
        | _ => ret [ownPathClause filePath]
        end
  end.

Definition nameCriteria (fileName : string) : json :=
  if truthyString fileName
  then JObj [("name", JObj [("$match", JStr fileName)])]
  else JObj [("name", JObj [("$match", JStr "*")])].

(** [findInstance] up to its call of [runAql]: the query it builds. *)
Definition findInstance_query (fileName filePath : string)
           (targetRepos : list json) (limit : nat) (pathsToSearch : value)
  : result AqlQuery :=
  pc <- pathCriteria filePath pathsToSearch ;;
  let criteria := repoCriteria targetRepos ++ pc ++ [nameCriteria fileName] in
  ret (mkAqlQuery (JObj [("$and", JArr criteria)])
                  ["repo"; "path"; "name"]
                  (if Nat.ltb 0 limit then Some limit else None)).

(** The address [runAql] posts to: a template literal over [jpd]. *)
Definition aqlEndpoint (jpd : json) : result string :=
  host <- toString jpd ;;
  ret ("https://" ++ host ++ "/artifactory/api/search/aql")%string.

(** [runAql], given what the post does: the error is logged and thrown
    again; a missing [results] is an empty list. *)
Definition runAql (o : PostOutcome) : result (list FoundItem) :=
  match o with
  | Rejected => throw RequestError
  | Resolved (Some results) => ret results
  | Resolved None => ret []
  end.

(** ** The search jobs *)

(** A search job once the loop that creates the jobs is over: each job has
    run up to its first suspension. *)
Inductive SearchJob : Type :=
| Skipped            (* saw [found] set; no request *)
| Failed             (* threw, before or inside its [try]; no request *)
| Pending (jpd : JPDConfig) (endpoint : string) (query : AqlQuery).
                     (* the request to [endpoint] is in flight *)

(** The text every log line of a job is built from:
    [jpd.url + (repoConfig ? ', repo: ' + repoConfig.name : ' (all repos)')].
    Its conversions can throw. *)
Definition jobLabel (jpd : JPDConfig) (repoConfig : option RepoConfig)
  : result string :=
  u <- toString (url jpd) ;;
  r <- match repoConfig with
       | Some rc =>
           n <- toString (name rc) ;;
           ret (", repo: " ++ n)%string
       | None => ret " (all repos)"
       end ;;
  ret (u ++ r)%string.

(** The part of one job that runs when the job is created, with the value
    [found] has at that moment.  The log lines before the [try] are built
    first: when their conversions throw, the job is over.  Inside the [try]
    the query is built and the address is formed; an exception there is
    caught by the job. *)
Definition startJob (found : bool) (fullPath : string) (m : ScopeMatch)
  : SearchJob :=
  let '(jpd, repoConfig) := m in
  match jobLabel jpd repoConfig with
  | inl _ => Failed
  | inr _ =>
      if found then Skipped
      else
        let fileNameToSearch := getFileNameFromPath fullPath in
        let filePathToSearch := getDirectoryPathFromPath fullPath in
        let targetRepos :=
          match repoConfig with
          | Some rc => [name rc]
          | None => []
          end in
        let pathsToSearch :=
          match repoConfig with
          | Some rc => if truthy (paths rc) then paths rc else None
          | None => None
          end in
        match (query <- findInstance_query fileNameToSearch filePathToSearch
                                            targetRepos 1 pathsToSearch ;;
               endpoint <- aqlEndpoint (url jpd) ;;
               ret (endpoint, query)) with
        | inl _ => Failed
        | inr (endpoint, query) => Pending jpd endpoint query
        end
  end.

(** The loop that creates the jobs.  It runs to its end before any
    continuation of a job can run, so every job reads [found] as it was
    when the loop began. *)
Definition startJobs (found : bool) (fullPath : string)
           (relevant : list ScopeMatch) : list SearchJob :=
  map (startJob found fullPath) relevant.

(** The requests made, in the order they are made. *)
Fixpoint requestsOf (jobs : list SearchJob) : list (string * AqlQuery) :=
  match jobs with
  | [] => []
  | Pending _ endpoint query :: rest => (endpoint, query) :: requestsOf rest
  | _ :: rest => requestsOf rest
  end.

(** The variables the jobs share. *)
Record SearchState : Type := mkSearchState {
  found : bool;
  foundMessage : option string
}.

Definition foundMessageFor (fullPath : string) (jpd : JPDConfig)
           (firstFound : FoundItem) : result string :=
  let fullPathOfFoundItem :=
    ((if String.eqb (item_path firstFound) "." then "" else item_path firstFound)
     ++ (if String.eqb (item_path firstFound) "." then "" else "/")
     ++ item_name firstFound)%string in
  u <- toString (url jpd) ;;
  ret ("Artifact matching " ++ fullPath ++ " already exists in JPD: "
         ++ u ++ ":" ++ item_repo firstFound ++ "/"
         ++ fullPathOfFoundItem)%string.

(** The rest of job [i], run when its request settles with [outcomes i]. *)
Definition settle (fullPath : string) (jobs : list SearchJob)
           (outcomes : nat -> PostOutcome) (st : SearchState) (i : nat)
  : SearchState :=
  match nth_error jobs i with
  | Some (Pending jpd _ _) =>
      match runAql (outcomes i) with
      | inl _ => st                (* the job's [catch]: the error is logged *)
      | inr result =>
          match result with
          | firstFound :: _ =>
              if negb (found st) then
                (* [found = true] comes first; the message is assigned
                   only if it can be built *)
                match foundMessageFor fullPath jpd firstFound with
                | inr m => mkSearchState true (Some m)
                | inl _ => mkSearchState true (foundMessage st)
                end
              else st
          | [] => st
          end
      end
  | _ => st
  end.

(** [await Promise.allSettled(searchJobs)]: the requests settle in the
    order [order] (job indices), each continuation running to its end. *)
Definition settleAll (fullPath : string) (jobs : list SearchJob)
           (outcomes : nat -> PostOutcome) (order : list nat) (st : SearchState)
  : SearchState :=
  fold_left (settle fullPath jobs outcomes) order st.

(** ** The decision *)

(** The [if (found) ... else ...] that ends the [try] block. *)
Definition unknownActionMessage : string :=
  "Unknown action in config. Upload will not proceed.".

(** The [default] branch of the [switch]: the warning
    ['Unknown action ' + config.action + ...] is built first, and its
    conversion can throw. *)
Definition unknownAction (action : value) : result (UploadStatus * string) :=
  _ <- valueToString action ;;
  ret (UPLOAD_STOP, unknownActionMessage).

Definition policyDecision (st : SearchState) (action : value) (fullPath : string)
  : result (UploadStatus * string) :=
  if found st then
    let message :=
      match foundMessage st with
      | Some m => if truthyString m then m
                  else "Duplicate artifact found. Upload will not proceed."
      | None => "Duplicate artifact found. Upload will not proceed."
      end in
    match action with
    | Some (JStr a) =>
        if String.eqb a "block" then ret (UPLOAD_STOP, message)
        else if String.eqb a "warn" then ret (UPLOAD_WARN, message)
        else unknownAction action
    | _ => unknownAction action
    end
  else
    ret (UPLOAD_PROCEED,
         ("Artifact " ++ fullPath ++ " can be uploaded. No duplicates found.")%string).

(** The status of a decision, or the exception thrown instead. *)
Definition statusOf (decision : result (UploadStatus * string)) : result UploadStatus :=
  match decision with
  | inl e => inl e
  | inr (status, _) => inr status
  end.

(** The response assembled from a decision for the identity [rp], or the
    exception thrown instead. *)
Definition responseOf (rp : RepoPath) (decision : result (UploadStatus * string))
  : result BeforeUploadResponse :=
  match decision with
  | inl e => inl e
  | inr (status, message) => inr (mkBeforeUploadResponse status message (Some rp) [])
  end.

(** ** The worker *)

(** The test that opens the [try] block: the identity, if the request has
    one with a non-empty [key] and [path]. *)
Definition essentialRepoPath (data : option BeforeUploadRequest) : option RepoPath :=
  match data with
  | Some d =>
      match metadata d with
      | Some md =>
          match repoPath md with
          | Some rp =>
              if truthyString (key rp) && truthyString (path rp) then Some rp
              else None
          | None => None
          end
      | None => None
      end
  | None => None
  end.

(** A run of the worker: what it returns or throws, and the requests it
    made to the JPDs. *)
Record Run : Type := mkRun {
  outcome : result BeforeUploadResponse;
  requests : list (string * AqlQuery)
}.

(** The exported function.  [configString] is what [loadConfig] resolves
    to, [outcomes i] what the request of job [i] does, and [order] the
    order in which the requests settle. *)
Definition worker (configString : string) (outcomes : nat -> PostOutcome)
           (order : list nat) (data : option BeforeUploadRequest) : Run :=
  match essentialRepoPath data with
  | None =>
      mkRun (ret (mkBeforeUploadResponse UPLOAD_STOP
                    "Essential data missing in the request payload." None []))
            []
  | Some rp =>
      let resolved :=
        config <- Config_constructor configString ;;
        let uploadDir := getDirectoryPathFromPath (path rp) in
        relevant <- relevantJPDs (getJPDs config) uploadDir ;;
        ret (config, relevant) in
      match resolved with
      | inl error => mkRun (throw error) []       (* the outer [catch] throws again *)
      | inr (config, []) =>
          mkRun (ret (mkBeforeUploadResponse UPLOAD_PROCEED
                        "Artifact path is not in configured search scope for any JPD. Upload allowed."
                        (Some rp) []))
                []
      | inr (config, relevant) =>
          let jobs := startJobs false (path rp) relevant in
          let st := settleAll (path rp) jobs outcomes order (mkSearchState false None) in
          match policyDecision st (action config) (path rp) with
          | inl error =>               (* the outer [catch] throws again *)
              mkRun (throw error) (requestsOf jobs)
          | inr (status, message) =>
              mkRun (ret (mkBeforeUploadResponse status message (Some rp) []))
                    (requestsOf jobs)
          end
      end
  end.

(** ** [Config]: the lookup methods *)

(** [r.name === repoName] *)
Definition nameIs (repoName : string) (r : RepoConfig) : bool :=
  match name r with
  | JStr s => String.eqb s repoName
  | _ => false
  end.

Definition getJPDsForRepo (config : Config) (repoName : string) : list JPDConfig :=
  filter (fun jpd => existsb (nameIs repoName) (repos jpd)) (jpds config).

Definition getRepoConfig (jpd : JPDConfig) (repoName : string) : option RepoConfig :=
  List.find (nameIs repoName) (repos jpd).

(** ** The document read by the constructor *)

(** The constructor's [try] block after [JSON.parse]. *)
Definition configOfDocument (rawJSON : json) : result Config :=
  j <- get rawJSON "jpds" ;;
  js <- match j with
        | Some (JArr entries) =>
            entries' <- mapM normalizeJPD entries ;;
            ret (filterBoolean entries')
        | _ => ret []
        end ;;
  a <- get rawJSON "action" ;;
  ret (mkConfig js a).

(** What the constructor leaves in a repo entry: a bare name, or a truthy
    name with whatever [paths] was. *)
Definition repoKept (rc : RepoConfig) : Prop :=
  (exists s, name rc = JStr s /\ paths rc = None) \/ truthyJson (name rc) = true.

(** What the constructor leaves in a JPD entry. *)
Definition jpdKept (jpd : JPDConfig) : Prop :=
  truthyJson (url jpd) = true /\ Forall repoKept (repos jpd).

(** The document of the documented shape for a configuration: a repo
    without [paths] whose name is a string is written as the bare name. *)
Definition encodeRepo (rc : RepoConfig) : json :=
  match name rc, paths rc with
  | JStr s, None => JStr s
  | n, Some p => JObj [("name", n); ("paths", p)]
  | n, None => JObj [("name", n)]
  end.

Definition encodeJPD (jpd : JPDConfig) : json :=
  JObj [("url", url jpd); ("repos", JArr (map encodeRepo (repos jpd)))].

Definition encodeConfig (config : Config) : json :=
  JObj (("jpds", JArr (map encodeJPD (jpds config)))
        :: match action config with
           | Some a => [("action", a)]
           | None => []
           end).

(** A configuration whose path roots are all strings. *)
Definition stringPaths (rc : RepoConfig) : Prop :=
  paths rc = None \/ exists roots, paths rc = Some (JArr (map JStr roots)).

Definition stringRoots (configJPDs : list JPDConfig) : Prop :=
  Forall (fun jpd => Forall stringPaths (repos jpd)) configJPDs.

(** A configuration whose urls and repo names all convert to strings. *)
Definition labelsConvert (configJPDs : list JPDConfig) : Prop :=
  Forall (fun jpd =>
            (exists u, toString (url jpd) = inr u)
            /\ Forall (fun rc => exists n, toString (name rc) = inr n) (repos jpd))
         configJPDs.

(** Whether the repo scope is found relevant to the directory. *)
Definition relevantTo (d : string) (rc : RepoConfig) : bool :=
  match repoRelevant d rc with
  | inr true => true
  | _ => false
  end.

(** The scopes of a configuration that are relevant to a directory, JPD by
    JPD in configuration order, and within a JPD in the order of its repo
    scopes. *)
Definition scopesInOrder (configJPDs : list JPDConfig) (d : string)
  : list ScopeMatch :=
  flat_map (fun jpd =>
              match repos jpd with
              | [] => [(jpd, None)]
              | rs => map (fun rc => (jpd, Some rc)) (filter (relevantTo d) rs)
              end)
           configJPDs.

(** ** Logging thresholds *)

Inductive LogLevel : Type :=
| level_none
| level_error
| level_warn
| level_info
| level_debug
| level_all.

Definition logLevelPriority (level : LogLevel) : nat :=
  match level with
  | level_none => 0
  | level_error => 1
  | level_warn => 2
  | level_info => 3
  | level_debug => 4
  | level_all => 5
  end.

(** The methods of [log] that write. *)
Inductive LogMethod : Type :=
| log_info
| log_debug
| log_warn
| log_error
| log_always.

(** Whether a call of the method reaches [_log] when the level is
    [LOG_LEVEL]. *)
Definition logWrites (LOG_LEVEL : LogLevel) (method : LogMethod) : bool :=
  match method with
  | log_info => Nat.leb (logLevelPriority level_info) (logLevelPriority LOG_LEVEL)
  | log_debug => Nat.leb (logLevelPriority level_debug) (logLevelPriority LOG_LEVEL)
  | log_warn => Nat.leb (logLevelPriority level_warn) (logLevelPriority LOG_LEVEL)
  | log_error => Nat.leb (logLevelPriority level_error) (logLevelPriority LOG_LEVEL)
  | log_always => true
  end.

(** ** [loadConfig] *)

(** [JSON.stringify] on a parsed JSON value. *)
Variable JSON_stringify : json -> string.

(** The response of the platform client: its [status] and its [data]
    (a string is [JStr]; [undefined] is [None]). *)
Record HttpResponse : Type := mkHttpResponse {
  response_status : nat;
  response_data : value
}.

(** What [platformHttp.get] does: it rejects, or resolves to a response or
    to nothing. *)
Inductive GetOutcome : Type :=
| GetRejected
| GetResolved (response : option HttpResponse).

Definition config_repo : string := "worker-config".

(** The address read; the [repo] argument is not used. *)
Definition configAddress (repo : string) : string :=
  "/artifactory/" ++ config_repo ++ "/blocker-config.json".

Definition loadConfig (platformHttp_get : string -> GetOutcome) (repo : string)
  : string :=
  match platformHttp_get (configAddress repo) with
  | GetRejected => ""
  | GetResolved None => ""
  | GetResolved (Some response) =>
      if Nat.eqb (response_status response) 200 then
        match response_data response with
        | Some (JStr s) => s
        | Some data => if typeofObject data then JSON_stringify data else ""
        | None => ""
        end
      else ""
  end.


(** A settled job that found something: its request is in flight and
    returns a non-empty list. *)
Definition jobMatches (jobs : list SearchJob) (outcomes : nat -> PostOutcome)
           (i : nat) : bool :=
  match nth_error jobs i with
  | Some (Pending _ _ _) =>
      match runAql (outcomes i) with
      | inr (_ :: _) => true
      | _ => false
      end
  | _ => false
  end.

(** * Properties *)

(** ** Strings *)

Lemma truthyString_true (s : string) : truthyString s = true <-> s <> "".
Proof.
  unfold truthyString. rewrite negb_true_iff. apply String.eqb_neq.
Qed.

Lemma split_without_separator (sep : ascii) (s : string) :
  contains sep s = false -> split sep s = [s].
Proof.
  induction s as [|c rest IH]; simpl; intros H.
  - reflexivity.
  - apply orb_false_iff in H. destruct H as [Hc Hrest].
    rewrite Hc, (IH Hrest). reflexivity.
Qed.

Lemma endsWith_cons (c : ascii) (s : string) :
  endsWith (String c s) "/" =
  match s with
  | EmptyString => Ascii.eqb c "/"
  | String _ _ => endsWith s "/"
  end.
Proof.
  unfold endsWith. simpl String.length.
  destruct s as [|c' s'].
  - simpl. destruct (Ascii.eqb_spec c "/") as [->|Hne]; simpl.
    + reflexivity.
    + destruct (Ascii.eqb_spec c "/"); [contradiction|reflexivity].
  - simpl. rewrite Nat.sub_0_r. reflexivity.
Qed.

(** [endsWith s "/"] holds exactly of the strings written [t ++ "/"]. *)
Lemma endsWith_slash_iff (s : string) :
  endsWith s "/" = true <-> exists t, s = (t ++ "/")%string.
Proof.
  induction s as [|c s IH].
  - split; [discriminate|]. intros [[|? ?] H]; discriminate.
  - rewrite endsWith_cons. destruct s as [|c' s'].
    + split.
      * intros H. apply Ascii.eqb_eq in H. subst. exists "". reflexivity.
      * intros [[|a t] H]; simpl in H.
        -- injection H as ->. reflexivity.
        -- injection H as _ H. destruct t; discriminate.
    + rewrite IH. split.
      * intros [t ->]. exists (String c t). reflexivity.
      * intros [[|a t] H]; simpl in H; [discriminate|].
        injection H as _ H. exists t. exact H.
Qed.

Lemma prefix_nonempty_of_empty (a : ascii) (s : string) :
  String.prefix (String a s) "" = false.
Proof. reflexivity. Qed.


Lemma prefix_app_l (p q d : string) :
  String.prefix (p ++ q) d = true -> String.prefix p d = true.
Proof.
  revert d. induction p as [|a p IH]; intros d H.
  - destruct d; reflexivity.
  - destruct d as [|b d]; simpl in *; [discriminate|].
    destruct (ascii_dec a b); [apply IH; exact H|discriminate].
Qed.

(** ** Path scopes *)

Lemma someM_pathMatches_strings (uploadDir : string) (roots : list string) :
  someM (pathMatches uploadDir) (map JStr roots)
  = ret (existsb (rootCovers uploadDir) roots).
Proof.
  induction roots as [|root rest IH]; simpl.
  - reflexivity.
  - fold (rootCovers uploadDir root).
    destruct (rootCovers uploadDir root); simpl; [reflexivity|exact IH].
Qed.

Lemma repoRelevant_strings (nm : json) (roots : list string) (d : string) :
  roots <> [] ->
  repoRelevant d (mkRepoConfig nm (Some (JArr (map JStr roots))))
  = ret (existsb (rootCovers d) roots).
Proof.
  intros Hne. unfold repoRelevant. simpl paths.
  destruct roots as [|root rest]; [contradiction|].
  exact (someM_pathMatches_strings d (root :: rest)).
Qed.

Lemma rootCovers_iff (d root : string) :
  rootCovers d root = true <->
  d = root
  \/ String.prefix (if endsWith root "/" then root else (root ++ "/")%string) d = true.
Proof using.
  unfold rootCovers, startsWith. rewrite orb_true_iff, String.eqb_eq.
  split; intros H; exact H.
Qed.

(** C3, as amended.  A repo scope whose [paths] is a non-empty array of
    strings is decided without an exception, and it is relevant to an upload
    directory [d] exactly when [d] equals some root, or starts with that root
    followed by a slash when the root does not end in one, or starts with
    the root itself when the root already ends in a slash.  Root
    [immutable] covers [immutable/sub] and does not cover [immutable2]. *)
Theorem C3_path_scope_match (nm : json) (roots : list string) (d : string) :
  roots <> [] ->
  (exists b, repoRelevant d (mkRepoConfig nm (Some (JArr (map JStr roots)))) = inr b)
  /\ (repoRelevant d (mkRepoConfig nm (Some (JArr (map JStr roots)))) = inr true
      <-> exists root, In root roots
            /\ (d = root
                \/ (endsWith root "/" = false /\ String.prefix (root ++ "/") d = true)
                \/ (endsWith root "/" = true /\ String.prefix root d = true)))
  /\ repoRelevant "immutable/sub" (mkRepoConfig nm (Some (JArr [JStr "immutable"])))
     = inr true
  /\ repoRelevant "immutable2" (mkRepoConfig nm (Some (JArr [JStr "immutable"])))
     = inr false.
Proof using.
  intros Hne. rewrite (repoRelevant_strings nm roots d Hne).
  split; [eexists; reflexivity|].
  split; [|split; reflexivity].
  unfold ret. split.
  - intros H. injection H as H. apply existsb_exists in H.
    destruct H as [root [Hin Hc]]. exists root. split; [exact Hin|].
    apply rootCovers_iff in Hc. destruct Hc as [Hc|Hc]; [left; exact Hc|].
    right. destruct (endsWith root "/"); [right|left]; (split; [reflexivity|exact Hc]).
  - intros [root [Hin Hc]]. f_equal. apply existsb_exists.
    exists root. split; [exact Hin|]. apply rootCovers_iff.
    destruct Hc as [->|[[He Hp]|[He Hp]]];
      [left; reflexivity|right; rewrite He; exact Hp|right; rewrite He; exact Hp].
Qed.

(** The rule as the specification words it is sufficient for relevance. *)
Lemma specPathRule_sufficient (nm : json) (roots : list string) (d : string) :
  specPathRule roots d ->
  repoRelevant d (mkRepoConfig nm (Some (JArr (map JStr roots)))) = inr true.
Proof using.
  intros [root [Hin Hc]].
  assert (Hne : roots <> []) by (intros ->; destruct Hin).
  rewrite (repoRelevant_strings nm roots d Hne). unfold ret. f_equal.
  apply existsb_exists. exists root. split; [exact Hin|].
  apply rootCovers_iff. destruct Hc as [->|Hp]; [left; reflexivity|].
  destruct (endsWith root "/") eqn:He; [|right; exact Hp].
  right. exact (prefix_app_l root "/" d Hp).
Qed.


(** ** Root-level uploads *)

Lemma directory_without_separator (fullPath : string) :
  contains "/" fullPath = false -> getDirectoryPathFromPath fullPath = "".
Proof.
  intros H. unfold getDirectoryPathFromPath.
  destruct (negb (truthyString fullPath)); [reflexivity|].
  rewrite (split_without_separator "/" fullPath H). reflexivity.
Qed.

Lemma rootCovers_empty_dir (root : string) :
  root <> "" -> rootCovers "" root = false.
Proof.
  intros Hne. unfold rootCovers, startsWith.
  destruct root as [|a root]; [contradiction|].
  simpl String.eqb. destruct (endsWith (String a root) "/"); reflexivity.
Qed.

(** A job whose JPD has a [url] that converts, without repo scope. *)
Lemma startJob_unscoped (fullPath : string) (jpd : JPDConfig) (u : string) :
  toString (url jpd) = inr u ->
  startJob false fullPath (jpd, None)
  = Pending jpd ("https://" ++ u ++ "/artifactory/api/search/aql")
      (mkAqlQuery
         (JObj [("$and",
                 JArr [ownPathClause (getDirectoryPathFromPath fullPath);
                       nameCriteria (getFileNameFromPath fullPath)])])
         ["repo"; "path"; "name"] (Some 1)).
Proof.
  intros Hu. unfold startJob, jobLabel, aqlEndpoint, findInstance_query.
  rewrite Hu. reflexivity.
Qed.

(** C10, as amended.  For an upload path without a slash the directory used
    for scope matching is the empty string; a repo scope whose [paths] is a
    non-empty array of non-empty strings is then not relevant; and a search
    of such an upload without explicit paths (no repo scope, or a repo scope
    whose [paths] is absent or empty), made whenever the JPD's [url] and the
    repo's [name] convert to strings, asks for the literal path [.]. *)
Theorem C10_root_level_upload (fullPath : string) :
  contains "/" fullPath = false ->
  getDirectoryPathFromPath fullPath = ""
  /\ (forall nm roots,
        roots <> [] -> ~ In "" roots ->
        repoRelevant (getDirectoryPathFromPath fullPath)
                     (mkRepoConfig nm (Some (JArr (map JStr roots)))) = inr false)
  /\ (forall jpd u,
        toString (url jpd) = inr u ->
        exists q,
          startJob false fullPath (jpd, None)
          = Pending jpd ("https://" ++ u ++ "/artifactory/api/search/aql") q
          /\ In (JObj [("path", JStr ".")]) (criteriaOf q))
  /\ (forall jpd u nm n ps,
        toString (url jpd) = inr u ->
        toString nm = inr n ->
        ps = None \/ ps = Some (JArr []) ->
        exists q,
          startJob false fullPath (jpd, Some (mkRepoConfig nm ps))
          = Pending jpd ("https://" ++ u ++ "/artifactory/api/search/aql") q
          /\ In (JObj [("path", JStr ".")]) (criteriaOf q)).
Proof.
  intros H. pose proof (directory_without_separator fullPath H) as Hd.
  split; [exact Hd|]. rewrite Hd. split; [|split].
  - intros nm roots Hne Hno.
    rewrite (repoRelevant_strings nm roots "" Hne). unfold ret. f_equal.
    apply not_true_is_false. intros Hex. apply existsb_exists in Hex.
    destruct Hex as [root [Hin Hc]].
    rewrite rootCovers_empty_dir in Hc; [discriminate|].
    intros ->. exact (Hno Hin).
  - intros jpd u Hu. rewrite (startJob_unscoped fullPath jpd u Hu), Hd.
    eexists. split; [reflexivity|]. unfold criteriaOf. simpl. left. reflexivity.
  - intros jpd u nm n ps Hu Hn [-> | ->];
      unfold startJob, jobLabel, aqlEndpoint, findInstance_query;
      simpl name; rewrite Hu, Hn, Hd; simpl;
      (eexists; split; [reflexivity|]); unfold criteriaOf; simpl; right; left; reflexivity.
Qed.

(** ** The query of a scope without a repo *)

(** C1, as amended.  For a scope that carries no repo scope, the job makes
    its request whenever the JPD's [url] converts to a string (and makes
    none otherwise), and the criteria of that request are exactly two: the
    path equal to the upload's own directory (the literal [.] when that
    directory is empty) and the name matching the upload's file name (the
    pattern [*] when the file name is empty); there is no repository
    criterion; the query includes [repo], [path] and [name] and is limited
    to one result. *)
Theorem C1_unscoped_query (jpd : JPDConfig) (rp : RepoPath) :
  let dir := getDirectoryPathFromPath (path rp) in
  let file := getFileNameFromPath (path rp) in
  (forall u,
      toString (url jpd) = inr u ->
      startJob false (path rp) (jpd, None)
      = Pending jpd ("https://" ++ u ++ "/artifactory/api/search/aql")
          (mkAqlQuery
             (JObj [("$and",
                     JArr [JObj [("path", JStr (if String.eqb dir "" then "." else dir))];
                           JObj [("name",
                                  JObj [("$match",
                                         JStr (if String.eqb file "" then "*"
                                               else file))])]])])
             ["repo"; "path"; "name"]
             (Some 1)))
  /\ (forall e,
        toString (url jpd) = inl e ->
        startJob false (path rp) (jpd, None) = Failed).
Proof.
  intros dir file. split.
  - intros u Hu. rewrite (startJob_unscoped (path rp) jpd u Hu).
    fold dir. fold file. unfold ownPathClause, nameCriteria, truthyString.
    destruct (String.eqb dir ""), (String.eqb file ""); reflexivity.
  - intros e He. unfold startJob, jobLabel. rewrite He. reflexivity.
Qed.


(** ** The decision table *)

(** C4, as the code has it.  The status is a function of [found] and the
    configured action alone: [PROCEED] when nothing was found, whatever the
    action; [STOP] when something was found and the action is [block];
    [WARN] when something was found and the action is [warn]; and, when
    something was found and the action is anything else or is missing,
    [STOP] with the message replaced by one that reports the unknown
    action, provided the action converts to a string for the warning that
    is logged first; when it does not, the conversion's exception is thrown
    and there is no decision. *)
Theorem C4_policy_table (st : SearchState) (action : value) (fullPath : string) :
  (forall st' fullPath',
      found st' = found st ->
      statusOf (policyDecision st' action fullPath')
      = statusOf (policyDecision st action fullPath))
  /\ (found st = false ->
      statusOf (policyDecision st action fullPath) = inr UPLOAD_PROCEED)
  /\ (found st = true -> action = Some (JStr "block") ->
      statusOf (policyDecision st action fullPath) = inr UPLOAD_STOP)
  /\ (found st = true -> action = Some (JStr "warn") ->
      statusOf (policyDecision st action fullPath) = inr UPLOAD_WARN)
  /\ (forall text,
        found st = true ->
        action <> Some (JStr "block") -> action <> Some (JStr "warn") ->
        valueToString action = inr text ->
        policyDecision st action fullPath
        = inr (UPLOAD_STOP, "Unknown action in config. Upload will not proceed."))
  /\ (forall e,
        found st = true ->
        valueToString action = inl e ->
        policyDecision st action fullPath = inl e).
Proof.
  repeat split.
  - intros st' fullPath' Hf. unfold policyDecision. rewrite Hf.
    destruct (found st); [|reflexivity].
    destruct action as [[| | |a| |]|]; try reflexivity.
    destruct (String.eqb a "block"); [reflexivity|].
    destruct (String.eqb a "warn"); reflexivity.
  - intros Hf. unfold policyDecision. rewrite Hf. reflexivity.
  - intros Hf ->. unfold policyDecision. rewrite Hf. reflexivity.
  - intros Hf ->. unfold policyDecision. rewrite Hf. reflexivity.
  - intros text Hf Hb Hw Ht. unfold policyDecision. rewrite Hf.
    assert (Hu : unknownAction action
                 = inr (UPLOAD_STOP, "Unknown action in config. Upload will not proceed."))
      by (unfold unknownAction; rewrite Ht; reflexivity).
    destruct action as [[| | |a| |]|]; try exact Hu.
    destruct (String.eqb_spec a "block") as [->|_]; [contradiction Hb; reflexivity|].
    destruct (String.eqb_spec a "warn") as [->|_]; [contradiction Hw; reflexivity|].
    exact Hu.
  - intros e Hf He. unfold policyDecision. rewrite Hf.
    assert (Hu : unknownAction action = inl e)
      by (unfold unknownAction; rewrite He; reflexivity).
    destruct action as [[| | |a| |]|]; try exact Hu.
    simpl in He. discriminate.
Qed.

(** ** The search *)

Lemma settle_keeps_found (fullPath : string) (jobs : list SearchJob)
      (outcomes : nat -> PostOutcome) (st : SearchState) (i : nat) :
  found st = true -> found (settle fullPath jobs outcomes st i) = true.
Proof.
  intros H. unfold settle.
  destruct (nth_error jobs i) as [[| |jpd e q]|]; try exact H.
  destruct (runAql (outcomes i)) as [ex|[|item items]]; try exact H.
  rewrite H. exact H.
Qed.

Lemma settleAll_keeps_found (fullPath : string) (jobs : list SearchJob)
      (outcomes : nat -> PostOutcome) (order : list nat) (st : SearchState) :
  found st = true -> found (settleAll fullPath jobs outcomes order st) = true.
Proof.
  unfold settleAll. revert st.
  induction order as [|i order IH]; intros st H; simpl.
  - exact H.
  - apply IH. apply settle_keeps_found. exact H.
Qed.

Lemma settle_finds (fullPath : string) (jobs : list SearchJob)
      (outcomes : nat -> PostOutcome) (st : SearchState) (i : nat)
      (jpd : JPDConfig) (e : string) (q : AqlQuery)
      (item : FoundItem) (items : list FoundItem) :
  nth_error jobs i = Some (Pending jpd e q) ->
  outcomes i = Resolved (Some (item :: items)) ->
  found (settle fullPath jobs outcomes st i) = true.
Proof.
  intros Hj Ho. unfold settle. rewrite Hj, Ho. simpl.
  destruct (found st) eqn:Hf; simpl; [exact Hf|].
  destruct (foundMessageFor fullPath jpd item); reflexivity.
Qed.

Lemma settleAll_finds (fullPath : string) (jobs : list SearchJob)
      (outcomes : nat -> PostOutcome) (order : list nat) (st : SearchState) (i : nat)
      (jpd : JPDConfig) (e : string) (q : AqlQuery)
      (item : FoundItem) (items : list FoundItem) :
  In i order ->
  nth_error jobs i = Some (Pending jpd e q) ->
  outcomes i = Resolved (Some (item :: items)) ->
  found (settleAll fullPath jobs outcomes order st) = true.
Proof.
  intros Hin Hj Ho. unfold settleAll. revert st.
  induction order as [|k order IH]; intros st; simpl.
  - destruct Hin.
  - destruct Hin as [->|Hin].
    + apply (settleAll_keeps_found fullPath jobs outcomes order).
      exact (settle_finds fullPath jobs outcomes st i jpd e q item items Hj Ho).
    + apply IH. exact Hin.
Qed.

(** A request that is rejected leaves the shared variables as they are. *)
Lemma settle_rejected (fullPath : string) (jobs : list SearchJob)
      (outcomes : nat -> PostOutcome) (st : SearchState) (i : nat) :
  outcomes i = Rejected -> settle fullPath jobs outcomes st i = st.
Proof.
  intros Ho. unfold settle. rewrite Ho.
  destruct (nth_error jobs i) as [[| |jpd e q]|]; reflexivity.
Qed.

Lemma settle_asNoMatch (fullPath : string) (jobs : list SearchJob)
      (outcomes : nat -> PostOutcome) (i : nat) (st : SearchState) (k : nat) :
  outcomes i = Rejected ->
  settle fullPath jobs (asNoMatch outcomes i) st k = settle fullPath jobs outcomes st k.
Proof.
  intros Ho. unfold settle, asNoMatch.
  destruct (nth_error jobs k) as [[| |jpd e q]|]; try reflexivity.
  destruct (Nat.eqb_spec k i) as [->|Hne]; [|reflexivity].
  rewrite Ho. reflexivity.
Qed.

Lemma settleAll_asNoMatch (fullPath : string) (jobs : list SearchJob)
      (outcomes : nat -> PostOutcome) (i : nat) (order : list nat) (st : SearchState) :
  outcomes i = Rejected ->
  settleAll fullPath jobs (asNoMatch outcomes i) order st
  = settleAll fullPath jobs outcomes order st.
Proof.
  intros Ho. unfold settleAll. revert st.
  induction order as [|k order IH]; intros st; simpl; [reflexivity|].
  rewrite (settle_asNoMatch fullPath jobs outcomes i st k Ho). apply IH.
Qed.

Lemma settleAll_all_rejected (fullPath : string) (jobs : list SearchJob)
      (outcomes : nat -> PostOutcome) (order : list nat) (st : SearchState) :
  (forall i, outcomes i = Rejected) ->
  settleAll fullPath jobs outcomes order st = st.
Proof.
  intros Hall. unfold settleAll. revert st.
  induction order as [|k order IH]; intros st; simpl; [reflexivity|].
  rewrite (settle_rejected fullPath jobs outcomes st k (Hall k)). apply IH.
Qed.

Lemma settle_frozen (fullPath : string) (jobs : list SearchJob)
      (outcomes : nat -> PostOutcome) (st : SearchState) (i : nat) :
  found st = true -> settle fullPath jobs outcomes st i = st.
Proof.
  intros H. unfold settle.
  destruct (nth_error jobs i) as [[| |jpd e q]|]; try reflexivity.
  destruct (runAql (outcomes i)) as [ex|[|item items]]; try reflexivity.
  rewrite H. reflexivity.
Qed.

Lemma settleAll_frozen (fullPath : string) (jobs : list SearchJob)
      (outcomes : nat -> PostOutcome) (order : list nat) (st : SearchState) :
  found st = true -> settleAll fullPath jobs outcomes order st = st.
Proof.
  intros H. unfold settleAll. induction order as [|i order IH]; simpl; [reflexivity|].
  rewrite (settle_frozen fullPath jobs outcomes st i H). exact IH.
Qed.

Lemma settle_no_match (fullPath : string) (jobs : list SearchJob)
      (outcomes : nat -> PostOutcome) (st : SearchState) (i : nat) :
  jobMatches jobs outcomes i = false -> settle fullPath jobs outcomes st i = st.
Proof.
  unfold jobMatches, settle.
  destruct (nth_error jobs i) as [[| |jpd e q]|]; try reflexivity.
  destruct (runAql (outcomes i)) as [ex|[|item items]]; try reflexivity.
  discriminate.
Qed.

Lemma settle_match (fullPath : string) (jobs : list SearchJob)
      (outcomes : nat -> PostOutcome) (st : SearchState) (i : nat) :
  jobMatches jobs outcomes i = true ->
  found (settle fullPath jobs outcomes st i) = true.
Proof.
  unfold jobMatches, settle.
  destruct (nth_error jobs i) as [[| |jpd e q]|]; try discriminate.
  destruct (runAql (outcomes i)) as [ex|[|item items]]; try discriminate.
  intros _. destruct (found st) eqn:Hf; simpl; [exact Hf|].
  destruct (foundMessageFor fullPath jpd item); reflexivity.
Qed.

(** Something is found exactly when some settled job matches. *)
Lemma settleAll_found (fullPath : string) (jobs : list SearchJob)
      (outcomes : nat -> PostOutcome) (order : list nat) (st : SearchState) :
  found (settleAll fullPath jobs outcomes order st)
  = found st || existsb (jobMatches jobs outcomes) order.
Proof.
  unfold settleAll. revert st.
  induction order as [|i order IH]; intros st; simpl.
  - rewrite orb_false_r. reflexivity.
  - rewrite IH. destruct (jobMatches jobs outcomes i) eqn:Hm; simpl.
    + rewrite (settle_match fullPath jobs outcomes st i Hm).
      rewrite orb_true_r. reflexivity.
    + rewrite (settle_no_match fullPath jobs outcomes st i Hm). reflexivity.
Qed.

(** ** The constructor never throws *)

Lemma Config_constructor_total (rawJSONString : string) :
  exists config, Config_constructor rawJSONString = inr config.
Proof.
  unfold Config_constructor, try_catch.
  destruct (Config_try rawJSONString) as [e|config]; eexists; reflexivity.
Qed.

(** C6.  A configuration text that is empty, or that [JSON.parse] rejects,
    makes the constructor return (not throw) the configuration with no JPD
    and the action [warn]. *)
Theorem C6_fail_open_config (rawJSONString : string) :
  rawJSONString = "" \/ (exists e, JSON_parse rawJSONString = inl e) ->
  Config_constructor rawJSONString = inr (mkConfig [] (Some (JStr "warn"))).
Proof.
  intros [-> | [e He]].
  - reflexivity.
  - unfold Config_constructor, Config_try.
    destruct (truthyString rawJSONString); [|reflexivity].
    rewrite He. reflexivity.
Qed.

(** ** The worker *)

Lemma essentialRepoPath_identity (data : option BeforeUploadRequest) (rp : RepoPath) :
  essentialRepoPath data = Some rp ->
  identityOf data = Some rp /\ key rp <> "" /\ path rp <> "".
Proof.
  unfold essentialRepoPath, identityOf.
  destruct data as [d|]; [|discriminate].
  destruct (metadata d) as [md|]; [|discriminate].
  destruct (repoPath md) as [rp'|]; [|discriminate].
  destruct (truthyString (key rp')) eqn:Hk; [|discriminate].
  destruct (truthyString (path rp')) eqn:Hp; [|discriminate].
  simpl. intros H. injection H as <-.
  split; [reflexivity|]. split; apply truthyString_true; assumption.
Qed.

(** The worker once validation and scope resolution have succeeded. *)
Lemma worker_resolved (configString : string) (outcomes : nat -> PostOutcome)
      (order : list nat) (data : option BeforeUploadRequest)
      (rp : RepoPath) (config : Config) (relevant : list ScopeMatch) :
  essentialRepoPath data = Some rp ->
  Config_constructor configString = inr config ->
  relevantJPDs (getJPDs config) (getDirectoryPathFromPath (path rp)) = inr relevant ->
  worker configString outcomes order data =
  match relevant with
  | [] =>
      mkRun (inr (mkBeforeUploadResponse UPLOAD_PROCEED
                    "Artifact path is not in configured search scope for any JPD. Upload allowed."
                    (Some rp) []))
            []
  | _ :: _ =>
      let jobs := startJobs false (path rp) relevant in
      let st := settleAll (path rp) jobs outcomes order (mkSearchState false None) in
      mkRun (responseOf rp (policyDecision st (action config) (path rp)))
            (requestsOf jobs)
  end.
Proof.
  intros Hv Hc Hr. unfold worker. rewrite Hv, Hc. simpl bind. rewrite Hr. simpl.
  destruct relevant as [|m relevant]; [reflexivity|].
  destruct (policyDecision _ _ _) as [e|[s msg]]; reflexivity.
Qed.

(** C5.  When no scope is relevant to the upload, the worker returns
    [PROCEED] and makes no request to any JPD. *)
Theorem C5_no_scope_fast_path (configString : string) (outcomes : nat -> PostOutcome)
        (order : list nat) (data : option BeforeUploadRequest)
        (rp : RepoPath) (config : Config) :
  essentialRepoPath data = Some rp ->
  Config_constructor configString = inr config ->
  relevantJPDs (getJPDs config) (getDirectoryPathFromPath (path rp)) = inr [] ->
  (exists resp,
      outcome (worker configString outcomes order data) = inr resp
      /\ status resp = UPLOAD_PROCEED)
  /\ requests (worker configString outcomes order data) = [].
Proof.
  intros Hv Hc Hr.
  rewrite (worker_resolved configString outcomes order data rp config [] Hv Hc Hr).
  split; [eexists; split; reflexivity|reflexivity].
Qed.

(** The requests a run makes do not depend on what the requests do, nor on
    the order in which they settle. *)
Lemma requests_independent (configString : string)
      (outcomes outcomes' : nat -> PostOutcome) (order order' : list nat)
      (data : option BeforeUploadRequest) :
  requests (worker configString outcomes order data)
  = requests (worker configString outcomes' order' data).
Proof.
  unfold worker. destruct (essentialRepoPath data) as [rp|]; [|reflexivity].
  destruct (Config_constructor configString) as [e|config]; [reflexivity|].
  simpl bind.
  destruct (relevantJPDs _ _) as [e|[|m relevant]]; try reflexivity.
  simpl. do 2 destruct (policyDecision _ _ _) as [?|[? ?]]; reflexivity.
Qed.

Lemma policyDecision_not_found (st : SearchState) (action : value) (fullPath : string) :
  found st = false ->
  policyDecision st action fullPath
  = inr (UPLOAD_PROCEED,
         ("Artifact " ++ fullPath ++ " can be uploaded. No duplicates found.")%string).
Proof.
  intros H. unfold policyDecision. rewrite H. reflexivity.
Qed.

(** C7.  A request that is rejected counts as one that found nothing: the
    run is the same as if that request had returned an empty result list;
    the worker throws only if some request that settled returned a
    non-empty list, never because a request was rejected; the requests
    made are the same whatever any of them does; and when every request is
    rejected the worker returns [PROCEED]. *)
Theorem C7_remote_error_is_no_match (configString : string)
        (outcomes : nat -> PostOutcome) (order : list nat)
        (data : option BeforeUploadRequest)
        (rp : RepoPath) (config : Config) (relevant : list ScopeMatch) :
  essentialRepoPath data = Some rp ->
  Config_constructor configString = inr config ->
  relevantJPDs (getJPDs config) (getDirectoryPathFromPath (path rp)) = inr relevant ->
  (forall i, outcomes i = Rejected ->
      worker configString (asNoMatch outcomes i) order data
      = worker configString outcomes order data)
  /\ ((forall i, In i order ->
                 jobMatches (startJobs false (path rp) relevant) outcomes i = false) ->
      exists resp,
        outcome (worker configString outcomes order data) = inr resp
        /\ status resp = UPLOAD_PROCEED)
  /\ requests (worker configString outcomes order data)
     = requestsOf (startJobs false (path rp) relevant)
  /\ ((forall i, outcomes i = Rejected) ->
      exists resp,
        outcome (worker configString outcomes order data) = inr resp
        /\ status resp = UPLOAD_PROCEED).
Proof.
  intros Hv Hc Hr.
  pose proof (worker_resolved configString outcomes order data rp config relevant
                              Hv Hc Hr) as Hw.
  repeat split.
  - intros i Ho.
    rewrite (worker_resolved configString (asNoMatch outcomes i) order data rp config
                             relevant Hv Hc Hr), Hw.
    destruct relevant as [|m relevant]; [reflexivity|].
    cbv zeta. rewrite (settleAll_asNoMatch _ _ outcomes i order _ Ho). reflexivity.
  - intros Hnone. rewrite Hw. destruct relevant as [|m relevant].
    + eexists; split; reflexivity.
    + cbv zeta. rewrite policyDecision_not_found.
      * eexists; split; reflexivity.
      * rewrite settleAll_found. cbn [found orb].
        apply not_true_is_false. intros Hex. apply existsb_exists in Hex.
        destruct Hex as [i [Hin Hm]]. rewrite (Hnone i Hin) in Hm. discriminate.
  - rewrite Hw. destruct relevant; reflexivity.
  - intros Hall. rewrite Hw. destruct relevant as [|m relevant].
    + eexists; split; reflexivity.
    + cbv zeta. rewrite (settleAll_all_rejected _ _ outcomes order _ Hall).
      eexists; split; reflexivity.
Qed.

Lemma policyDecision_found (st : SearchState) (action : value) (fullPath : string) :
  found st = true ->
  match valueToString action with
  | inr _ =>
      exists status message,
        policyDecision st action fullPath = inr (status, message)
        /\ (status = UPLOAD_STOP \/ status = UPLOAD_WARN)
  | inl e => policyDecision st action fullPath = inl e
  end.
Proof.
  intros Hf. unfold policyDecision. rewrite Hf.
  assert (Hu : match valueToString action with
               | inr _ =>
                   exists status message,
                     unknownAction action = inr (status, message)
                     /\ (status = UPLOAD_STOP \/ status = UPLOAD_WARN)
               | inl e => unknownAction action = inl e
               end).
  { unfold unknownAction. destruct (valueToString action) as [e|text]; simpl;
      [reflexivity|]. eexists; eexists; split; [reflexivity|left; reflexivity]. }
  destruct action as [[| b |n|a|items|members]|]; try exact Hu.
  simpl valueToString. cbv iota.
  destruct (String.eqb a "block");
    [eexists; eexists; split; [reflexivity|left; reflexivity]|].
  destruct (String.eqb a "warn");
    [eexists; eexists; split; [reflexivity|right; reflexivity]|].
  exact Hu.
Qed.

(** C8.  When the request of some relevant scope returns a non-empty result
    list, the worker's decision is never [PROCEED], whatever the
    configuration, the other outcomes and the order in which the requests
    settle: no response with status [PROCEED] is returned; a response with
    status [STOP] or [WARN] is returned whenever the configured action
    converts to a string, and otherwise the worker throws. *)
Theorem C8_match_never_proceeds (configString : string)
        (outcomes : nat -> PostOutcome) (order : list nat)
        (data : option BeforeUploadRequest)
        (rp : RepoPath) (config : Config) (relevant : list ScopeMatch)
        (i : nat) (jpd : JPDConfig) (endpoint : string) (q : AqlQuery)
        (item : FoundItem) (items : list FoundItem) :
  essentialRepoPath data = Some rp ->
  Config_constructor configString = inr config ->
  relevantJPDs (getJPDs config) (getDirectoryPathFromPath (path rp)) = inr relevant ->
  nth_error (startJobs false (path rp) relevant) i = Some (Pending jpd endpoint q) ->
  outcomes i = Resolved (Some (item :: items)) ->
  In i order ->
  (forall resp,
      outcome (worker configString outcomes order data) = inr resp ->
      status resp <> UPLOAD_PROCEED)
  /\ match valueToString (action config) with
     | inr _ =>
         exists resp,
           outcome (worker configString outcomes order data) = inr resp
           /\ (status resp = UPLOAD_STOP \/ status resp = UPLOAD_WARN)
     | inl e => outcome (worker configString outcomes order data) = inl e
     end.
Proof.
  intros Hv Hc Hr Hj Ho Hin.
  rewrite (worker_resolved configString outcomes order data rp config relevant Hv Hc Hr).
  destruct relevant as [|m relevant]; [destruct i; discriminate|].
  cbv zeta. cbn [outcome].
  pose proof (settleAll_finds (path rp) _ outcomes order (mkSearchState false None)
                              i jpd endpoint q item items Hin Hj Ho) as Hf.
  pose proof (policyDecision_found _ (action config) (path rp) Hf) as Hd.
  destruct (valueToString (action config)) as [e|text].
  - rewrite Hd. split; [discriminate|reflexivity].
  - destruct Hd as [s [msg [-> Hs]]]. simpl. split.
    + intros resp H. injection H as <-. simpl.
      destruct Hs as [-> | ->]; discriminate.
    + eexists. split; [reflexivity|exact Hs].
Qed.

(** C9, as amended.  Every response the worker returns has an empty header
    map.  A response returned after validation has succeeded carries the
    request's identity unchanged; the response to a request that fails
    validation is [STOP] and carries no identity. *)
Theorem C9_response_frame (configString : string) (outcomes : nat -> PostOutcome)
        (order : list nat) (data : option BeforeUploadRequest)
        (resp : BeforeUploadResponse) :
  outcome (worker configString outcomes order data) = inr resp ->
  headers resp = []
  /\ (forall rp, essentialRepoPath data = Some rp ->
        modifiedRepoPath resp = Some rp /\ identityOf data = Some rp)
  /\ (essentialRepoPath data = None ->
        modifiedRepoPath resp = None /\ status resp = UPLOAD_STOP).
Proof.
  unfold worker.
  destruct (essentialRepoPath data) as [rp|] eqn:Hv.
  - destruct (Config_constructor configString) as [e|config]; [discriminate|].
    simpl bind.
    destruct (relevantJPDs _ _) as [e|[|m relevant]]; [discriminate| |]; simpl.
    + intros H. injection H as <-. simpl.
      split; [reflexivity|]. split; [|discriminate].
      intros rp' H. injection H as <-. split; [reflexivity|].
      apply (essentialRepoPath_identity data rp Hv).
    + destruct (policyDecision _ _ _) as [e|[s msg]]; simpl; [discriminate|].
      intros H. injection H as <-. simpl.
      split; [reflexivity|]. split; [|discriminate].
      intros rp' H. injection H as <-. split; [reflexivity|].
      apply (essentialRepoPath_identity data rp Hv).
  - simpl. intros H. injection H as <-. simpl.
    split; [reflexivity|]. split; [discriminate|]. intros _. split; reflexivity.
Qed.


(** ** Targets without a repo list *)

(** A JPD entry with a truthy [url] and an empty [repos] array is kept, with
    no repo scope. *)
Lemma normalizeJPD_empty_repos (u : json) :
  truthyJson u = true ->
  normalizeJPD (JObj [("url", u); ("repos", JArr [])]) = inr (Some (mkJPDConfig u [])).
Proof.
  intros Hu. unfold normalizeJPD. simpl. rewrite Hu. reflexivity.
Qed.

(** A JPD without repo scopes is relevant to every upload directory. *)
Lemma empty_repos_always_relevant (u : json) (rest : list JPDConfig) (d : string)
      (more : list ScopeMatch) :
  relevantJPDs rest d = inr more ->
  relevantJPDs (mkJPDConfig u [] :: rest) d = inr ((mkJPDConfig u [], None) :: more).
Proof.
  intros H. simpl. rewrite H. reflexivity.
Qed.

(** C2, at the failing input.  A configuration whose only JPD entry has a
    truthy [url] and no [repos] member is parsed to a configuration without
    any JPD: the entry is dropped, so every valid upload is allowed without
    any request being made. *)
Theorem C2_target_without_repos_dropped (rawJSONString : string)
        (members : list (string * json)) (u a : json)
        (outcomes : nat -> PostOutcome) (order : list nat) (k p : string) :
  rawJSONString <> "" ->
  JSON_parse rawJSONString = inr (JObj [("jpds", JArr [JObj members]); ("action", a)]) ->
  lookup "url" members = Some u ->
  truthyJson u = true ->
  lookup "repos" members = None ->
  k <> "" -> p <> "" ->
  normalizeJPD (JObj members) = inr None
  /\ Config_constructor rawJSONString = inr (mkConfig [] (Some a))
  /\ worker rawJSONString outcomes order (uploadOf k p)
     = mkRun (inr (mkBeforeUploadResponse UPLOAD_PROCEED
                     "Artifact path is not in configured search scope for any JPD. Upload allowed."
                     (Some (mkRepoPath k p (k ++ ":" ++ p) false false)) []))
             [].
Proof.
  intros Hraw Hparse Hurl Hu Hrepos Hk Hp.
  assert (Hn : normalizeJPD (JObj members) = inr None).
  { unfold normalizeJPD. simpl. rewrite Hurl. simpl. rewrite Hu, Hrepos. reflexivity. }
  assert (Hc : Config_constructor rawJSONString = inr (mkConfig [] (Some a))).
  { unfold Config_constructor, Config_try.
    apply truthyString_true in Hraw. rewrite Hraw, Hparse. simpl.
    rewrite Hn. reflexivity. }
  split; [exact Hn|]. split; [exact Hc|].
  apply (worker_resolved rawJSONString outcomes order (uploadOf k p)
           (mkRepoPath k p (k ++ ":" ++ p) false false) (mkConfig [] (Some a)) []).
  - unfold essentialRepoPath, uploadOf. simpl.
    apply truthyString_true in Hk. apply truthyString_true in Hp.
    rewrite Hk, Hp. reflexivity.
  - exact Hc.
  - reflexivity.
Qed.


(** No job is skipped when it is created: [found] is still [false] then. *)
Lemma startJobs_none_skipped (fullPath : string) (relevant : list ScopeMatch) :
  ~ In Skipped (startJobs false fullPath relevant).
Proof.
  unfold startJobs. intros H. apply in_map_iff in H.
  destruct H as [[jpd rc] [H _]]. unfold startJob in H.
  destruct (jobLabel jpd rc); [discriminate|].
  destruct (findInstance_query _ _ _ _ _); simpl in H; [discriminate|].
  destruct (aqlEndpoint (url jpd)); discriminate.
Qed.


(** * Further properties of the worker's code *)

(** ** Splitting a path into directory and file name *)

Lemma split_nonempty (sep : ascii) (s : string) : split sep s <> [].
Proof.
  destruct s as [|c rest]; simpl; [discriminate|].
  destruct (Ascii.eqb c sep); [discriminate|].
  destruct (split sep rest); discriminate.
Qed.

Lemma join_split (sep : ascii) (s : string) :
  join (String sep "") (split sep s) = s.
Proof.
  unfold join. induction s as [|c rest IH]; simpl; [reflexivity|].
  pose proof (split_nonempty sep rest) as Hne.
  destruct (Ascii.eqb_spec c sep) as [->|Hc].
  - destruct (split sep rest) as [|seg segs]; [contradiction|].
    change (String.concat (String sep "") ("" :: seg :: segs))
      with (String sep (String.concat (String sep "") (seg :: segs))).
    rewrite IH. reflexivity.
  - destruct (split sep rest) as [|seg segs]; [contradiction|].
    destruct segs as [|seg' segs]; simpl in *; rewrite <- IH; reflexivity.
Qed.

Lemma split_segments_clean (sep : ascii) (s : string) :
  Forall (fun seg => contains sep seg = false) (split sep s).
Proof.
  induction s as [|c rest IH]; simpl.
  - constructor; [reflexivity|constructor].
  - destruct (Ascii.eqb c sep) eqn:Hc.
    + constructor; [reflexivity|exact IH].
    + destruct (split sep rest) as [|seg segs]; simpl.
      * constructor; [simpl; rewrite Hc; reflexivity|constructor].
      * inversion IH as [|? ? Hseg Hsegs]; subst.
        constructor; [simpl; rewrite Hc; exact Hseg|exact Hsegs].
Qed.

Lemma split_with_separator (sep : ascii) (s : string) :
  contains sep s = true -> exists seg seg' segs, split sep s = seg :: seg' :: segs.
Proof.
  induction s as [|c rest IH]; simpl; [discriminate|].
  pose proof (split_nonempty sep rest) as Hne.
  destruct (Ascii.eqb c sep) eqn:Hc; simpl; intros H.
  - destruct (split sep rest) as [|seg segs]; [contradiction|].
    exists "", seg, segs. reflexivity.
  - destruct (IH H) as [seg [seg' [segs ->]]].
    exists (String c seg), seg', segs. reflexivity.
Qed.

Lemma append_assoc (a b c : string) :
  ((a ++ b) ++ c)%string = (a ++ b ++ c)%string.
Proof.
  induction a as [|x a IH]; simpl; [reflexivity|]. rewrite IH. reflexivity.
Qed.

Lemma concat_snoc (sep : string) (l : list string) (x : string) :
  l <> [] ->
  String.concat sep (l ++ [x]) = (String.concat sep l ++ sep ++ x)%string.
Proof.
  induction l as [|a l IH]; intros Hne; [contradiction|].
  destruct l as [|b l].
  - reflexivity.
  - change (String.concat sep ((a :: b :: l) ++ [x]))
      with (a ++ sep ++ String.concat sep ((b :: l) ++ [x]))%string.
    rewrite IH by discriminate.
    change (String.concat sep (a :: b :: l))
      with (a ++ sep ++ String.concat sep (b :: l))%string.
    rewrite !append_assoc. reflexivity.
Qed.

Lemma fileName_is_last_segment (fullPath : string) :
  getFileNameFromPath fullPath = List.last (split "/" fullPath) "".
Proof.
  unfold getFileNameFromPath, pop, truthyString.
  destruct (String.eqb_spec fullPath "") as [->|Hne]; [reflexivity|]. simpl negb.
  pose proof (split_nonempty "/" fullPath) as Hs.
  destruct (split "/" fullPath) as [|seg segs]; [contradiction|].
  clear Hs Hne. revert seg. induction segs as [|seg' segs IH]; intros seg.
  - simpl. destruct (String.eqb_spec seg ""); [symmetry; assumption|reflexivity].
  - change (last (map Some (seg :: seg' :: segs)) None)
      with (last (map Some (seg' :: segs)) None).
    change (last (seg :: seg' :: segs) "") with (last (seg' :: segs) "").
    apply IH.
Qed.

(** X1.  A path that contains a slash is its directory, a slash, and its
    file name: nothing is lost between [getDirectoryPathFromPath] and
    [getFileNameFromPath]. *)
Theorem X1_directory_and_file_recompose (fullPath : string) :
  contains "/" fullPath = true ->
  (getDirectoryPathFromPath fullPath ++ "/" ++ getFileNameFromPath fullPath)%string
  = fullPath.
Proof.
  intros H. rewrite fileName_is_last_segment. unfold getDirectoryPathFromPath.
  assert (Hne : truthyString fullPath = true).
  { apply truthyString_true. intros ->. discriminate. }
  rewrite Hne. simpl negb. cbv iota.
  destruct (split_with_separator "/" fullPath H) as [seg [seg' [segs Hs]]].
  pose proof (join_split "/" fullPath) as Hj. rewrite Hs in *.
  simpl List.length. simpl Nat.leb. cbv iota.
  rewrite <- Hj. unfold join.
  set (segments := seg :: seg' :: segs).
  assert (Hsplit : segments = removelast segments ++ [last segments ""])
    by (apply app_removelast_last; discriminate).
  rewrite Hsplit at 3.
  rewrite concat_snoc; [reflexivity|].
  unfold segments. simpl. destruct segs; discriminate.
Qed.

(** X2.  The file name never contains a slash; it is the whole path when
    the path contains none. *)
Theorem X2_file_name_has_no_slash (fullPath : string) :
  contains "/" (getFileNameFromPath fullPath) = false
  /\ (contains "/" fullPath = false -> getFileNameFromPath fullPath = fullPath).
Proof.
  rewrite fileName_is_last_segment. split.
  - pose proof (split_segments_clean "/" fullPath) as Hc.
    pose proof (split_nonempty "/" fullPath) as Hne.
    rewrite Forall_forall in Hc. apply Hc.
    destruct (exists_last Hne) as [l [x Hx]]. rewrite Hx.
    rewrite last_last. apply in_or_app. right. left. reflexivity.
  - intros H. rewrite (split_without_separator "/" fullPath H). reflexivity.
Qed.


(** ** What the constructor keeps *)

Lemma mapM_inr_Forall2 {A B : Type} (f : A -> result B) (l : list A) (l' : list B) :
  mapM f l = inr l' -> Forall2 (fun a b => f a = inr b) l l'.
Proof.
  revert l'. induction l as [|a l IH]; simpl; intros l' H.
  - injection H as <-. constructor.
  - destruct (f a) as [e|b] eqn:Hf; simpl in H; [discriminate|].
    destruct (mapM f l) as [e|bs]; simpl in H; [discriminate|].
    injection H as <-. constructor; [exact Hf|apply IH; reflexivity].
Qed.

Lemma mapM_throws {A B : Type} (f : A -> result B) (l : list A) (a : A) :
  In a l -> (exists e, f a = inl e) -> exists e, mapM f l = inl e.
Proof.
  intros Hin [e He]. induction l as [|x l IH]; [destruct Hin|]. simpl.
  destruct (f x) as [e'|b] eqn:Hx; simpl; [eexists; reflexivity|].
  destruct Hin as [->|Hin]; [rewrite He in Hx; discriminate|].
  destruct (IH Hin) as [e' ->]. eexists; reflexivity.
Qed.

Lemma mapM_encoded {A B : Type} (f : A -> result (option B)) (g : B -> A)
      (l : list B) :
  Forall (fun b => f (g b) = inr (Some b)) l ->
  mapM f (map g l) = inr (map Some l).
Proof.
  induction 1 as [|b l Hb _ IH]; simpl; [reflexivity|].
  rewrite Hb. simpl. rewrite IH. reflexivity.
Qed.

Lemma filterBoolean_map_Some {A : Type} (l : list A) :
  filterBoolean (map Some l) = l.
Proof.
  induction l as [|a l IH]; simpl; [reflexivity|]. rewrite IH. reflexivity.
Qed.

Lemma filterBoolean_Forall2 {A B : Type} (P : B -> Prop) (f : A -> result (option B))
      (l : list A) (l' : list (option B)) :
  (forall a b, f a = inr (Some b) -> P b) ->
  Forall2 (fun a b => f a = inr b) l l' ->
  Forall P (filterBoolean l').
Proof.
  intros HP. induction 1 as [|a [b|] l l' Hab _ IH]; simpl.
  - constructor.
  - constructor; [exact (HP a b Hab)|exact IH].
  - exact IH.
Qed.

Lemma normalizeRepo_kept (repo : json) (rc : RepoConfig) :
  normalizeRepo repo = inr (Some rc) -> repoKept rc.
Proof.
  unfold normalizeRepo, repoKept.
  destruct repo as [| b | n | s | items | members]; simpl; try discriminate.
  - intros H. injection H as <-. left. exists s. split; reflexivity.
  - destruct (lookup "name" members) as [nm|]; simpl; [|discriminate].
    destruct (truthyJson nm) eqn:Hn; simpl; [|discriminate].
    intros H. injection H as <-. right. exact Hn.
Qed.

Lemma normalizeJPD_kept (entry : json) (jpd : JPDConfig) :
  normalizeJPD entry = inr (Some jpd) -> jpdKept jpd.
Proof.
  unfold normalizeJPD, jpdKept.
  destruct entry as [| b | n | s | items | members]; simpl; try discriminate.
  destruct (lookup "url" members) as [u|]; simpl; [|discriminate].
  destruct (truthyJson u) eqn:Hu; simpl; [|discriminate].
  destruct (lookup "repos" members) as [[| | | |rs|]|]; simpl; try discriminate.
  destruct (mapM normalizeRepo rs) as [e|rs'] eqn:Hm; simpl; [discriminate|].
  intros H. injection H as <-. simpl. split; [exact Hu|].
  apply (filterBoolean_Forall2 repoKept normalizeRepo rs rs' normalizeRepo_kept).
  apply mapM_inr_Forall2. exact Hm.
Qed.

Lemma configOfDocument_kept (rawJSON : json) (config : Config) :
  configOfDocument rawJSON = inr config -> Forall jpdKept (jpds config).
Proof.
  unfold configOfDocument.
  destruct (get rawJSON "jpds") as [e|j]; simpl; [discriminate|].
  destruct (get rawJSON "action") as [e|a];
    [destruct j as [[| | | |entries|]|]; simpl; try discriminate;
     destruct (mapM normalizeJPD entries); discriminate|].
  destruct j as [[| | | |entries|]|]; simpl;
    try (intros H; injection H as <-; constructor).
  destruct (mapM normalizeJPD entries) as [e|entries'] eqn:Hm; simpl; [discriminate|].
  intros H. injection H as <-. simpl.
  apply (filterBoolean_Forall2 jpdKept normalizeJPD entries entries' normalizeJPD_kept).
  apply mapM_inr_Forall2. exact Hm.
Qed.

Lemma Config_constructor_unfold (rawJSONString : string) :
  Config_constructor rawJSONString
  = try_catch (if truthyString rawJSONString
               then rawJSON <- JSON_parse rawJSONString ;; configOfDocument rawJSON
               else ret defaultConfig)
              (fun _ => ret defaultConfig).
Proof. reflexivity. Qed.

(** X3.  Whatever the configuration text, the constructor returns a
    configuration in which every JPD has a truthy [url], and every repo
    scope is a bare name or has a truthy [name]. *)
Theorem X3_constructor_invariant (rawJSONString : string) :
  exists config,
    Config_constructor rawJSONString = inr config
    /\ Forall jpdKept (jpds config).
Proof.
  rewrite Config_constructor_unfold.
  destruct (truthyString rawJSONString).
  - destruct (JSON_parse rawJSONString) as [e|rawJSON]; simpl.
    + eexists. split; [reflexivity|constructor].
    + destruct (configOfDocument rawJSON) as [e|config] eqn:Hc; simpl.
      * eexists. split; [reflexivity|constructor].
      * exists config. split; [reflexivity|].
        exact (configOfDocument_kept rawJSON config Hc).
  - eexists. split; [reflexivity|constructor].
Qed.

Lemma normalizeRepo_encodeRepo (rc : RepoConfig) :
  repoKept rc -> normalizeRepo (encodeRepo rc) = inr (Some rc).
Proof.
  destruct rc as [nm ps]. unfold repoKept, encodeRepo, normalizeRepo. simpl.
  intros [[s [-> ->]] | Hn]; [reflexivity|].
  destruct nm as [| b | n | s | items | members], ps as [p|];
    simpl in *; try discriminate; try rewrite Hn; reflexivity.
Qed.

Lemma normalizeJPD_encodeJPD (jpd : JPDConfig) :
  jpdKept jpd -> normalizeJPD (encodeJPD jpd) = inr (Some jpd).
Proof.
  destruct jpd as [u rs]. unfold jpdKept, encodeJPD, normalizeJPD. simpl.
  intros [Hu Hrs]. rewrite Hu. simpl.
  rewrite (mapM_encoded normalizeRepo encodeRepo rs).
  - simpl. rewrite filterBoolean_map_Some. reflexivity.
  - revert Hrs. apply Forall_impl. exact normalizeRepo_encodeRepo.
Qed.

(** X4.  A configuration that satisfies the constructor's invariant is read
    back exactly from its document of the documented shape
    ([{ jpds: [{ url, repos: [name | { name, paths }] }], action }]). *)
Theorem X4_documented_shape_round_trip (rawJSONString : string) (config : Config) :
  rawJSONString <> "" ->
  JSON_parse rawJSONString = inr (encodeConfig config) ->
  Forall jpdKept (jpds config) ->
  Config_constructor rawJSONString = inr config.
Proof.
  intros Hraw Hparse Hkept. rewrite Config_constructor_unfold.
  apply truthyString_true in Hraw. rewrite Hraw, Hparse. simpl bind.
  destruct config as [js a]. unfold configOfDocument, encodeConfig. simpl in *.
  assert (Hj : lookup "jpds" match a with Some a0 => [("action", a0)] | None => [] end
               = None) by (destruct a; reflexivity).
  rewrite Hj. simpl.
  rewrite (mapM_encoded normalizeJPD encodeJPD js).
  - simpl. rewrite filterBoolean_map_Some. destruct a; reflexivity.
  - revert Hkept. apply Forall_impl. exact normalizeJPD_encodeJPD.
Qed.

(** X5.  One [null] anywhere the constructor reads an object discards the
    whole configuration: when the document is [null], or its [jpds] array
    holds a [null], or the [repos] array of an entry with a truthy [url]
    holds a [null], the constructor returns the empty configuration with
    action [warn], whatever else the document says. *)
Theorem X5_null_discards_configuration (rawJSONString : string) (rawJSON : json) :
  rawJSONString <> "" ->
  JSON_parse rawJSONString = inr rawJSON ->
  (rawJSON = JNull
   \/ exists members entries,
       rawJSON = JObj members
       /\ lookup "jpds" members = Some (JArr entries)
       /\ (In JNull entries
           \/ exists ms u rs,
               In (JObj ms) entries
               /\ lookup "url" ms = Some u /\ truthyJson u = true
               /\ lookup "repos" ms = Some (JArr rs)
               /\ In JNull rs)) ->
  Config_constructor rawJSONString = inr (mkConfig [] (Some (JStr "warn"))).
Proof.
  intros Hraw Hparse Hnull. rewrite Config_constructor_unfold.
  apply truthyString_true in Hraw. rewrite Hraw, Hparse. simpl bind.
  destruct Hnull as [-> | [members [entries [-> [Hj Hin]]]]]; [reflexivity|].
  unfold configOfDocument. simpl. rewrite Hj. simpl.
  assert (Hthrow : exists e, mapM normalizeJPD entries = inl e).
  { destruct Hin as [Hin | [ms [u [rs [Hin [Hu [Ht [Hr Hn]]]]]]]].
    - apply (mapM_throws normalizeJPD entries JNull Hin). eexists; reflexivity.
    - apply (mapM_throws normalizeJPD entries (JObj ms) Hin).
      unfold normalizeJPD. simpl. rewrite Hu. simpl. rewrite Ht, Hr. simpl.
      destruct (mapM_throws normalizeRepo rs JNull Hn) as [e ->];
        [eexists; reflexivity|]. eexists; reflexivity. }
  destruct Hthrow as [e ->]. reflexivity.
Qed.

(** ** The lookup methods *)

Lemma nameIs_true (repoName : string) (r : RepoConfig) :
  nameIs repoName r = true <-> name r = JStr repoName.
Proof.
  unfold nameIs. destruct (name r) as [| b | n | s | items | members];
    try (split; discriminate).
  rewrite String.eqb_eq. split; [intros ->; reflexivity|].
  intros H. injection H as ->. reflexivity.
Qed.

(** X6.  [getRepoConfig] returns the first repo scope of the JPD whose name
    is the string asked for, and nothing exactly when the JPD has no repo
    scope of that name. *)
Theorem X6_getRepoConfig_finds_by_name (jpd : JPDConfig) (repoName : string) :
  (forall rc, getRepoConfig jpd repoName = Some rc ->
      exists before after,
        repos jpd = before ++ rc :: after
        /\ name rc = JStr repoName
        /\ forall r, In r before -> name r <> JStr repoName)
  /\ (getRepoConfig jpd repoName = None <->
      forall r, In r (repos jpd) -> name r <> JStr repoName).
Proof.
  unfold getRepoConfig. split.
  - induction (repos jpd) as [|r rs IH]; simpl; intros rc H; [discriminate|].
    destruct (nameIs repoName r) eqn:Hr.
    + injection H as <-. exists [], rs. split; [reflexivity|].
      split; [apply nameIs_true; exact Hr|]. intros r0 [].
    + destruct (IH rc H) as [before [after [-> [Hn Hb]]]].
      exists (r :: before), after. split; [reflexivity|]. split; [exact Hn|].
      intros r0 [<-|Hin]; [|exact (Hb r0 Hin)].
      intros Hc. apply nameIs_true in Hc. rewrite Hc in Hr. discriminate.
  - split.
    + intros H r Hin Hc. apply nameIs_true in Hc.
      rewrite (find_none _ _ H r Hin) in Hc. discriminate.
    + intros H. destruct (List.find (nameIs repoName) (repos jpd)) as [rc|] eqn:Hf;
        [|reflexivity].
      apply find_some in Hf. destruct Hf as [Hin Hn].
      apply nameIs_true in Hn. elim (H rc Hin Hn).
Qed.

(** X7.  [getJPDsForRepo] returns, in configuration order, exactly the JPDs
    in which [getRepoConfig] finds the name; a JPD without repo scopes (one
    that is searched in all its repositories) is never among them. *)
Theorem X7_getJPDsForRepo_agrees_with_getRepoConfig (config : Config)
        (repoName : string) :
  (forall jpd, In jpd (getJPDsForRepo config repoName) <->
               In jpd (jpds config) /\ getRepoConfig jpd repoName <> None)
  /\ (forall jpd, repos jpd = [] -> ~ In jpd (getJPDsForRepo config repoName))
  /\ getJPDsForRepo config repoName
     = filter (fun jpd => match getRepoConfig jpd repoName with
                          | Some _ => true
                          | None => false
                          end) (jpds config).
Proof.
  assert (Hex : forall jpd, existsb (nameIs repoName) (repos jpd)
                            = match getRepoConfig jpd repoName with
                              | Some _ => true
                              | None => false
                              end).
  { intros jpd. unfold getRepoConfig.
    induction (repos jpd) as [|r rs IH]; simpl; [reflexivity|].
    destruct (nameIs repoName r); [reflexivity|exact IH]. }
  unfold getJPDsForRepo. split; [|split].
  - intros jpd. rewrite filter_In, Hex.
    destruct (getRepoConfig jpd repoName); split; intros [Hin H];
      (split; [exact Hin|]); try discriminate; try reflexivity.
    elim H. reflexivity.
  - intros jpd Hr Hin. apply filter_In in Hin. destruct Hin as [_ H].
    rewrite Hr in H. discriminate.
  - apply filter_ext. exact Hex.
Qed.


(** ** Scope resolution *)

Lemma relevantRepos_characterised (jpd : JPDConfig) (d : string)
      (rs : list RepoConfig) (rel : list ScopeMatch) :
  relevantRepos jpd d rs = inr rel ->
  forall m, In m rel <->
            exists rc, m = (jpd, Some rc) /\ In rc rs /\ repoRelevant d rc = inr true.
Proof.
  revert rel. induction rs as [|rc rs IH]; simpl; intros rel H m.
  - injection H as <-. split; [intros []|intros [rc [_ [[] _]]]].
  - destruct (repoRelevant d rc) as [e|b] eqn:Hb; simpl in H; [discriminate|].
    destruct (relevantRepos jpd d rs) as [e|more]; simpl in H; [discriminate|].
    injection H as <-. specialize (IH more eq_refl m).
    destruct b; simpl; rewrite IH; split.
    + intros [<-|[rc' [-> [Hin Hr]]]].
      * exists rc. split; [reflexivity|]. split; [left; reflexivity|exact Hb].
      * exists rc'. split; [reflexivity|]. split; [right; exact Hin|exact Hr].
    + intros [rc' [-> [[<-|Hin] Hr]]].
      * left. reflexivity.
      * right. exists rc'. split; [reflexivity|]. split; assumption.
    + intros [rc' [-> [Hin Hr]]].
      exists rc'. split; [reflexivity|]. split; [right; exact Hin|exact Hr].
    + intros [rc' [-> [[<-|Hin] Hr]]].
      * rewrite Hb in Hr. discriminate.
      * exists rc'. split; [reflexivity|]. split; assumption.
Qed.

Lemma relevantJPDs_cons (j : JPDConfig) (js : list JPDConfig) (d : string) :
  relevantJPDs (j :: js) d
  = (here <- match repos j with
             | [] => ret [(j, None)]
             | r :: rs => relevantRepos j d (r :: rs)
             end ;;
     more <- relevantJPDs js d ;;
     ret (here ++ more)).
Proof. reflexivity. Qed.

Lemma relevantJPDs_characterised (configJPDs : list JPDConfig)
      (d : string) (relevant : list ScopeMatch) :
  relevantJPDs configJPDs d = inr relevant ->
  forall jpd scope,
    In (jpd, scope) relevant <->
    In jpd configJPDs
    /\ match scope with
       | None => repos jpd = []
       | Some rc => In rc (repos jpd) /\ repoRelevant d rc = inr true
       end.
Proof.
  revert relevant. induction configJPDs as [|j js IH]; intros relevant H jpd scope.
  - injection H as <-. split; [intros []|intros [[] _]].
  - rewrite relevantJPDs_cons in H. simpl In.
    destruct (match repos j with
              | [] => ret [(j, None)]
              | r :: rs => relevantRepos j d (r :: rs)
              end) as [e|here] eqn:Hh; simpl in H; [discriminate|].
    destruct (relevantJPDs js d) as [e|more]; simpl in H; [discriminate|].
    injection H as <-. specialize (IH more eq_refl jpd scope).
    rewrite in_app_iff, IH. clear IH.
    destruct (repos j) as [|r rs] eqn:Hr.
    + injection Hh as <-. simpl. split.
      * intros [[H|[]]|[Hin Hs]].
        -- injection H as <- <-. split; [left; reflexivity|exact Hr].
        -- split; [right; exact Hin|exact Hs].
      * intros [[<-|Hin] Hs].
        -- destruct scope as [rc|].
           ++ destruct Hs as [Hin _]. rewrite Hr in Hin. destruct Hin.
           ++ left. left. reflexivity.
        -- right. split; assumption.
    + pose proof (relevantRepos_characterised j d (r :: rs) here Hh (jpd, scope)) as Hc.
      rewrite Hc. split.
      * intros [[rc [Heq [Hin Hrel]]]|[Hin Hs]].
        -- injection Heq as -> ->. split; [left; reflexivity|].
           rewrite Hr. split; assumption.
        -- split; [right; exact Hin|exact Hs].
      * intros [[<-|Hin] Hs].
        -- destruct scope as [rc|].
           ++ left. exists rc. rewrite Hr in Hs. destruct Hs as [Hin Hrel].
              split; [reflexivity|]. split; assumption.
           ++ rewrite Hr in Hs. discriminate.
        -- right. split; assumption.
Qed.

(** X8.  The scopes resolved for an upload directory are exactly: for each
    JPD without repo scopes, the JPD alone; for each JPD with repo scopes,
    each of its repo scopes that is relevant to the directory.  Nothing
    else is resolved, and nothing of these is left out. *)
Theorem X8_resolved_scopes_characterised (configJPDs : list JPDConfig)
        (d : string) (relevant : list ScopeMatch) :
  relevantJPDs configJPDs d = inr relevant ->
  (forall jpd, In (jpd, None) relevant <-> In jpd configJPDs /\ repos jpd = [])
  /\ (forall jpd rc,
        In (jpd, Some rc) relevant <->
        In jpd configJPDs /\ In rc (repos jpd) /\ repoRelevant d rc = inr true).
Proof.
  intros H. split.
  - intros jpd. exact (relevantJPDs_characterised configJPDs d relevant H jpd None).
  - intros jpd rc.
    exact (relevantJPDs_characterised configJPDs d relevant H jpd (Some rc)).
Qed.

Lemma prefix_refl_app (p x : string) : String.prefix p (p ++ x) = true.
Proof.
  induction p as [|a p IH]; simpl; [destruct x; reflexivity|].
  destruct (ascii_dec a a) as [_|Hne]; [exact IH|contradiction].
Qed.

Lemma prefix_app_r (p d x : string) :
  String.prefix p d = true -> String.prefix p (d ++ x) = true.
Proof.
  revert d. induction p as [|a p IH]; intros d H.
  - destruct (d ++ x)%string; reflexivity.
  - destruct d as [|b d]; simpl in *; [discriminate|].
    destruct (ascii_dec a b); [apply IH; exact H|discriminate].
Qed.

Lemma rootCovers_subdirectory (d root sub : string) :
  rootCovers d root = true -> rootCovers (d ++ "/" ++ sub) root = true.
Proof.
  unfold rootCovers, startsWith. intros H.
  apply orb_true_iff in H. apply orb_true_iff. right.
  destruct H as [H|H].
  - apply String.eqb_eq in H. subst d.
    destruct (endsWith root "/").
    + apply prefix_refl_app.
    + rewrite <- append_assoc. apply prefix_refl_app.
  - apply prefix_app_r. exact H.
Qed.

Lemma someM_string_cons (d s : string) (l : list json) :
  someM (pathMatches d) (JStr s :: l)
  = if rootCovers d s then ret true else someM (pathMatches d) l.
Proof. reflexivity. Qed.

Lemma repoRelevant_subdirectory (d sub : string) (rc : RepoConfig) (b : bool) :
  repoRelevant d rc = inr b ->
  exists b', repoRelevant (d ++ "/" ++ sub) rc = inr b' /\ (b = true -> b' = true).
Proof.
  unfold repoRelevant.
  destruct (paths rc) as [[| | | |[|p ps]|]|];
    try (intros H; injection H as <-; exists true; split; [reflexivity|trivial]).
  generalize (p :: ps). clear p ps. intros l. revert b.
  induction l as [|p l IH]; intros b H.
  - simpl in H. injection H as <-. exists false. split; [reflexivity|discriminate].
  - destruct p as [| | |s| |]; try discriminate.
    rewrite someM_string_cons in H. rewrite someM_string_cons.
    destruct (rootCovers d s) eqn:Hc.
    + rewrite (rootCovers_subdirectory d s sub Hc).
      exists true. split; [reflexivity|trivial].
    + destruct (rootCovers (d ++ "/" ++ sub) s).
      * exists true. split; [reflexivity|trivial].
      * exact (IH b H).
Qed.

Lemma relevantRepos_cons (jpd : JPDConfig) (d : string) (rc : RepoConfig)
      (rs : list RepoConfig) :
  relevantRepos jpd d (rc :: rs)
  = (matches <- repoRelevant d rc ;;
     more <- relevantRepos jpd d rs ;;
     ret (if matches then (jpd, Some rc) :: more else more)).
Proof. reflexivity. Qed.

Lemma relevantRepos_subdirectory (jpd : JPDConfig) (d sub : string)
      (rs : list RepoConfig) (rel : list ScopeMatch) :
  relevantRepos jpd d rs = inr rel ->
  exists rel', relevantRepos jpd (d ++ "/" ++ sub) rs = inr rel'
               /\ forall m, In m rel -> In m rel'.
Proof.
  revert rel. induction rs as [|rc rs IH]; intros rel H.
  - injection H as <-. exists []. split; [reflexivity|trivial].
  - rewrite relevantRepos_cons in H. rewrite relevantRepos_cons.
    destruct (repoRelevant d rc) as [e|b] eqn:Hb; simpl in H; [discriminate|].
    destruct (relevantRepos jpd d rs) as [e|more]; simpl in H; [discriminate|].
    injection H as <-.
    destruct (repoRelevant_subdirectory d sub rc b Hb) as [b' [-> Hbb]].
    destruct (IH more eq_refl) as [more' [-> Hincl]]. simpl.
    eexists. split; [reflexivity|]. intros m Hin.
    destruct b.
    + rewrite (Hbb eq_refl). destruct Hin as [<-|Hin]; [left; reflexivity|].
      right. exact (Hincl m Hin).
    + destruct b'; [right|]; exact (Hincl m Hin).
Qed.

(** X9.  Relevance descends into subdirectories: when scope resolution
    succeeds for a directory [d], it succeeds for every [d/sub], and every
    scope resolved for [d] is resolved for [d/sub]. *)
Theorem X9_relevance_covers_subdirectories (configJPDs : list JPDConfig)
        (d sub : string) (relevant : list ScopeMatch) :
  relevantJPDs configJPDs d = inr relevant ->
  exists relevant',
    relevantJPDs configJPDs (d ++ "/" ++ sub) = inr relevant'
    /\ forall m, In m relevant -> In m relevant'.
Proof.
  revert relevant. induction configJPDs as [|j js IH]; intros relevant H.
  - injection H as <-. exists []. split; [reflexivity|trivial].
  - rewrite relevantJPDs_cons in H. rewrite relevantJPDs_cons.
    destruct (match repos j with
              | [] => ret [(j, None)]
              | r :: rs => relevantRepos j d (r :: rs)
              end) as [e|here] eqn:Hh; simpl in H; [discriminate|].
    destruct (relevantJPDs js d) as [e|more]; simpl in H; [discriminate|].
    injection H as <-.
    destruct (IH more eq_refl) as [more' [-> Hincl]].
    assert (Hhere : exists here',
               match repos j with
               | [] => ret [(j, None)]
               | r :: rs => relevantRepos j (d ++ "/" ++ sub) (r :: rs)
               end = inr here' /\ forall m, In m here -> In m here').
    { destruct (repos j) as [|r rs].
      - injection Hh as <-. eexists. split; [reflexivity|trivial].
      - exact (relevantRepos_subdirectory j d sub (r :: rs) here Hh). }
    destruct Hhere as [here' [-> Hincl']]. simpl.
    eexists. split; [reflexivity|]. intros m Hin.
    apply in_app_iff in Hin. apply in_app_iff.
    destruct Hin as [Hin|Hin]; [left; exact (Hincl' m Hin)|right; exact (Hincl m Hin)].
Qed.

Lemma prefix_longer (t x : string) :
  x <> "" -> String.prefix (t ++ x) t = false.
Proof.
  intros Hx. induction t as [|a t IH]; simpl.
  - destruct x; [contradiction|reflexivity].
  - destruct (ascii_dec a a); [exact IH|reflexivity].
Qed.

Lemma append_neq_self (t x : string) : x <> "" -> t <> (t ++ x)%string.
Proof.
  intros Hx. induction t as [|a t IH]; simpl.
  - intros H. apply Hx. symmetry. exact H.
  - intros H. injection H as H. exact (IH H).
Qed.

(** X10.  A root written with a trailing slash does not cover its own
    directory, only what lies below it: root [t/] is not relevant to an
    upload directly in [t] (which root [t] covers), and it is relevant to
    every [t/sub]. *)
Theorem X10_trailing_slash_root_misses_own_directory (nm : json) (t sub : string) :
  repoRelevant t (mkRepoConfig nm (Some (JArr [JStr (t ++ "/")]))) = inr false
  /\ repoRelevant t (mkRepoConfig nm (Some (JArr [JStr t]))) = inr true
  /\ repoRelevant (t ++ "/" ++ sub) (mkRepoConfig nm (Some (JArr [JStr (t ++ "/")])))
     = inr true.
Proof.
  assert (He : endsWith (t ++ "/") "/" = true)
    by (apply endsWith_slash_iff; exists t; reflexivity).
  assert (H1 : rootCovers t (t ++ "/") = false).
  { unfold rootCovers, startsWith. rewrite He.
    rewrite (prefix_longer t "/") by discriminate.
    destruct (String.eqb_spec t (t ++ "/")) as [H|_]; [|reflexivity].
    elim (append_neq_self t "/"); [discriminate|exact H]. }
  assert (H2 : rootCovers t t = true)
    by (unfold rootCovers; rewrite String.eqb_refl; reflexivity).
  assert (H3 : rootCovers (t ++ "/" ++ sub) (t ++ "/") = true).
  { unfold rootCovers, startsWith. rewrite He.
    rewrite <- append_assoc, prefix_refl_app. apply orb_true_r. }
  pose proof (repoRelevant_strings nm [(t ++ "/")%string] t) as R1.
  pose proof (repoRelevant_strings nm [t] t) as R2.
  pose proof (repoRelevant_strings nm [(t ++ "/")%string] (t ++ "/" ++ sub)) as R3.
  cbn [map existsb] in R1, R2, R3.
  rewrite R1, R2, R3 by discriminate. rewrite H1, H2, H3.
  repeat split.
Qed.


(** ** Configurations whose roots are strings *)

Lemma repoRelevant_stringPaths (d : string) (rc : RepoConfig) :
  stringPaths rc -> exists b, repoRelevant d rc = inr b.
Proof.
  destruct rc as [nm ps]. unfold stringPaths. simpl.
  intros [-> | [roots ->]].
  - exists true. reflexivity.
  - destruct roots as [|r roots]; [exists true; reflexivity|].
    eexists. apply repoRelevant_strings. discriminate.
Qed.

Lemma relevantRepos_stringPaths (jpd : JPDConfig) (d : string) (rs : list RepoConfig) :
  Forall stringPaths rs -> exists rel, relevantRepos jpd d rs = inr rel.
Proof.
  induction 1 as [|rc rs Hrc _ [rel IH]]; [exists []; reflexivity|].
  rewrite relevantRepos_cons.
  destruct (repoRelevant_stringPaths d rc Hrc) as [b ->]. rewrite IH.
  eexists. reflexivity.
Qed.

Lemma relevantJPDs_stringRoots (configJPDs : list JPDConfig) (d : string) :
  stringRoots configJPDs -> exists relevant, relevantJPDs configJPDs d = inr relevant.
Proof.
  unfold stringRoots.
  induction 1 as [|j js Hj _ [more IH]]; [exists []; reflexivity|].
  rewrite relevantJPDs_cons. rewrite IH.
  destruct (repos j) as [|r rs] eqn:Hr.
  - eexists. reflexivity.
  - destruct (relevantRepos_stringPaths j d (r :: rs) Hj) as [here ->].
    eexists. reflexivity.
Qed.

Lemma worker_invalid (configString : string) (outcomes : nat -> PostOutcome)
      (order : list nat) (data : option BeforeUploadRequest) :
  essentialRepoPath data = None ->
  worker configString outcomes order data
  = mkRun (inr (mkBeforeUploadResponse UPLOAD_STOP
                  "Essential data missing in the request payload." None []))
          [].
Proof.
  intros H. unfold worker. rewrite H. reflexivity.
Qed.

Lemma policyDecision_converts (st : SearchState) (action : value)
      (fullPath text : string) :
  valueToString action = inr text ->
  exists status message, policyDecision st action fullPath = inr (status, message).
Proof.
  intros Ht. destruct (found st) eqn:Hf.
  - pose proof (policyDecision_found st action fullPath Hf) as Hd.
    rewrite Ht in Hd. destruct Hd as [s [m [Hd _]]]. exists s, m. exact Hd.
  - rewrite (policyDecision_not_found st action fullPath Hf).
    eexists; eexists; reflexivity.
Qed.

(** X11.  The worker throws only on an ill-typed configuration: when every
    [paths] of the parsed configuration is absent or an array of strings,
    scope resolution succeeds for every directory; when moreover the action
    converts to a string (as every string, number, boolean, [null] and a
    missing action do), the worker returns a response, for every request,
    every outcome of the requests and every order of settlement. *)
Theorem X11_string_roots_never_throw (configString : string)
        (outcomes : nat -> PostOutcome) (order : list nat)
        (data : option BeforeUploadRequest) (config : Config) (text : string) :
  Config_constructor configString = inr config ->
  stringRoots (jpds config) ->
  valueToString (action config) = inr text ->
  (forall d, exists relevant, relevantJPDs (getJPDs config) d = inr relevant)
  /\ exists resp, outcome (worker configString outcomes order data) = inr resp.
Proof.
  intros Hc Hs Ht. split.
  - intros d. exact (relevantJPDs_stringRoots (jpds config) d Hs).
  - destruct (essentialRepoPath data) as [rp|] eqn:Hv.
    + destruct (relevantJPDs_stringRoots (jpds config)
                  (getDirectoryPathFromPath (path rp)) Hs) as [relevant Hr].
      rewrite (worker_resolved configString outcomes order data rp config relevant
                               Hv Hc Hr).
      destruct relevant as [|m relevant]; [eexists; reflexivity|].
      cbv zeta. cbn [outcome].
      destruct (policyDecision_converts
                  (settleAll (path rp) (startJobs false (path rp) (m :: relevant))
                             outcomes order (mkSearchState false None))
                  (action config) (path rp) text Ht) as [s [msg ->]].
      eexists. reflexivity.
    + rewrite (worker_invalid configString outcomes order data Hv).
      eexists. reflexivity.
Qed.

(** X12.  The worker does not compare the upload's repository key with
    anything: two valid requests with the same path and different keys get
    the same requests made, and the same status and message (or the same
    exception). *)
Theorem X12_repository_key_is_not_consulted (configString : string)
        (outcomes : nat -> PostOutcome) (order : list nat)
        (data data' : option BeforeUploadRequest) (rp rp' : RepoPath) :
  essentialRepoPath data = Some rp ->
  essentialRepoPath data' = Some rp' ->
  path rp = path rp' ->
  requests (worker configString outcomes order data)
  = requests (worker configString outcomes order data')
  /\ match outcome (worker configString outcomes order data),
           outcome (worker configString outcomes order data') with
     | inr resp, inr resp' => status resp = status resp' /\ message resp = message resp'
     | inl e, inl e' => e = e'
     | _, _ => False
     end.
Proof.
  intros Hv Hv' Hp. unfold worker. rewrite Hv, Hv', <- Hp.
  destruct (Config_constructor configString) as [e|config]; simpl bind;
    [split; reflexivity|].
  destruct (relevantJPDs _ _) as [e|[|m relevant]]; simpl;
    try (split; [reflexivity|]; try split; reflexivity).
  destruct (policyDecision _ _ _) as [e|[s msg]]; simpl.
  - split; reflexivity.
  - split; [reflexivity|]. split; reflexivity.
Qed.

(** ** The requests *)

Lemma criteriaOf_query (criteria : list json) (inc : list string) (lim : option nat) :
  criteriaOf (mkAqlQuery (JObj [("$and", JArr criteria)]) inc lim) = criteria.
Proof. reflexivity. Qed.

Lemma startJob_pending_shape (fullPath : string) (m : ScopeMatch)
      (jpd : JPDConfig) (e : string) (q : AqlQuery) :
  startJob false fullPath m = Pending jpd e q ->
  jpd = fst m
  /\ aqlEndpoint (url jpd) = inr e
  /\ limit q = Some 1
  /\ include q = ["repo"; "path"; "name"]
  /\ exists before,
      criteriaOf q = before ++ [nameCriteria (getFileNameFromPath fullPath)].
Proof.
  destruct m as [j scope]. unfold startJob, findInstance_query.
  destruct (jobLabel j scope) as [ex|label]; [discriminate|].
  destruct (pathCriteria _ _) as [ex|pc]; simpl; [discriminate|].
  destruct (aqlEndpoint (url j)) as [ex|endpoint] eqn:He; simpl; [discriminate|].
  intros H. injection H as <- <- <-. split; [reflexivity|].
  split; [exact He|]. split; [reflexivity|]. split; [reflexivity|].
  rewrite criteriaOf_query. eexists. rewrite app_assoc. reflexivity.
Qed.

Lemma requestsOf_startJobs_In (fullPath : string) (relevant : list ScopeMatch)
      (e : string) (q : AqlQuery) :
  In (e, q) (requestsOf (startJobs false fullPath relevant)) ->
  exists m jpd,
    In m relevant
    /\ startJob false fullPath m = Pending jpd e q.
Proof.
  unfold startJobs. induction relevant as [|m relevant IH]; simpl; [intros []|].
  destruct (startJob false fullPath m) as [| |jpd e' q'] eqn:Hj; simpl.
  - intros H. destruct (IH H) as [m' [jpd' [Hin H']]].
    exists m', jpd'. split; [right; exact Hin|exact H'].
  - intros H. destruct (IH H) as [m' [jpd' [Hin H']]].
    exists m', jpd'. split; [right; exact Hin|exact H'].
  - intros [H|H].
    + injection H as <- <-. exists m, jpd.
      split; [left; reflexivity|exact Hj].
    + destruct (IH H) as [m' [jpd' [Hin H']]].
      exists m', jpd'. split; [right; exact Hin|exact H'].
Qed.

(** X13.  Every request the worker makes goes to the endpoint of a JPD of
    the parsed configuration, asks for [repo], [path] and [name], is limited
    to one result, and has as its last criterion the match on the upload's
    file name ([*] when the file name is empty). *)
Theorem X13_every_request_is_bounded (configString : string)
        (outcomes : nat -> PostOutcome) (order : list nat)
        (data : option BeforeUploadRequest) (rp : RepoPath) (config : Config)
        (e : string) (q : AqlQuery) :
  essentialRepoPath data = Some rp ->
  Config_constructor configString = inr config ->
  In (e, q) (requests (worker configString outcomes order data)) ->
  limit q = Some 1
  /\ include q = ["repo"; "path"; "name"]
  /\ (exists jpd, In jpd (jpds config) /\ aqlEndpoint (url jpd) = inr e)
  /\ exists before,
      criteriaOf q = before ++ [nameCriteria (getFileNameFromPath (path rp))].
Proof.
  intros Hv Hc Hin.
  destruct (relevantJPDs (getJPDs config) (getDirectoryPathFromPath (path rp)))
    as [ex|relevant] eqn:Hr.
  - unfold worker in Hin. rewrite Hv, Hc in Hin. simpl bind in Hin.
    rewrite Hr in Hin. destruct Hin.
  - rewrite (worker_resolved configString outcomes order data rp config relevant
                             Hv Hc Hr) in Hin.
    destruct relevant as [|m0 relevant]; [destruct Hin|].
    cbv zeta in Hin. cbn [requests] in Hin.
    destruct (requestsOf_startJobs_In (path rp) (m0 :: relevant) e q Hin)
      as [m [jpd [Hm Hj]]].
    destruct (startJob_pending_shape (path rp) m jpd e q Hj)
      as [Hjpd [He [Hl [Hi Hn]]]].
    split; [exact Hl|]. split; [exact Hi|]. split; [|exact Hn].
    exists jpd. split; [|exact He].
    destruct m as [j scope]. simpl in Hjpd. subst j.
    apply (relevantJPDs_characterised (jpds config)
             (getDirectoryPathFromPath (path rp)) (m0 :: relevant) Hr jpd scope).
    exact Hm.
Qed.


Lemma relevantRepos_in_order (jpd : JPDConfig) (d : string)
      (rs : list RepoConfig) (rel : list ScopeMatch) :
  relevantRepos jpd d rs = inr rel ->
  rel = map (fun rc => (jpd, Some rc)) (filter (relevantTo d) rs).
Proof.
  revert rel. induction rs as [|rc rs IH]; intros rel H.
  - injection H as <-. reflexivity.
  - rewrite relevantRepos_cons in H.
    destruct (repoRelevant d rc) as [e|b] eqn:Hb; simpl in H; [discriminate|].
    destruct (relevantRepos jpd d rs) as [e|more]; simpl in H; [discriminate|].
    injection H as <-. rewrite (IH more eq_refl).
    assert (Hrel : relevantTo d rc = b).
    { unfold relevantTo. rewrite Hb. destruct b; reflexivity. }
    simpl filter. rewrite Hrel. destruct b; reflexivity.
Qed.

Lemma relevantJPDs_in_order (configJPDs : list JPDConfig) (d : string)
      (relevant : list ScopeMatch) :
  relevantJPDs configJPDs d = inr relevant ->
  relevant = scopesInOrder configJPDs d.
Proof.
  revert relevant. induction configJPDs as [|j js IH]; intros relevant H.
  - injection H as <-. reflexivity.
  - rewrite relevantJPDs_cons in H. unfold scopesInOrder. simpl flat_map.
    fold (scopesInOrder js d).
    destruct (repos j) as [|r rs] eqn:Hr.
    + simpl in H. destruct (relevantJPDs js d) as [e|more]; simpl in H; [discriminate|].
      injection H as <-. rewrite (IH more eq_refl). reflexivity.
    + destruct (relevantRepos j d (r :: rs)) as [e|here] eqn:Hh; simpl in H;
        [discriminate|].
      destruct (relevantJPDs js d) as [e|more]; simpl in H; [discriminate|].
      injection H as <-.
      rewrite (relevantRepos_in_order j d (r :: rs) here Hh), (IH more eq_refl).
      reflexivity.
Qed.

Lemma pathMatchClause_strings (roots : list string) :
  mapM (fun p => pathMatchClause (Some p)) (map JStr roots)
  = inr (map (fun root => JObj [("path", JObj [("$match", JStr (root ++ "*"))])])
             roots).
Proof.
  induction roots as [|r roots IH]; [reflexivity|].
  simpl. simpl in IH. rewrite IH. reflexivity.
Qed.

Lemma pathCriteria_strings (filePath : string) (roots : list string) :
  roots <> [] ->
  pathCriteria filePath (Some (JArr (map JStr roots)))
  = inr [match roots with
         | [root] => JObj [("path", JObj [("$match", JStr (root ++ "*"))])]
         | _ => JObj [("$or",
                       JArr (map (fun root =>
                                    JObj [("path",
                                           JObj [("$match", JStr (root ++ "*"))])])
                                 roots))]
         end].
Proof.
  intros Hne. destruct roots as [|r [|r' roots]]; [contradiction|reflexivity|].
  unfold pathCriteria. simpl negb. cbv iota.
  change (map JStr (r :: r' :: roots)) with (JStr r :: JStr r' :: map JStr roots).
  cbv iota.
  change (JStr r :: JStr r' :: map JStr roots) with (map JStr (r :: r' :: roots)).
  rewrite pathMatchClause_strings. reflexivity.
Qed.

(** The job of a scope whose labels convert and whose roots are strings. *)
Lemma startJob_stringPaths (fullPath : string) (jpd : JPDConfig)
      (scope : option RepoConfig) (u : string) :
  toString (url jpd) = inr u ->
  match scope with
  | Some rc => stringPaths rc /\ exists n, toString (name rc) = inr n
  | None => True
  end ->
  exists q,
    startJob false fullPath (jpd, scope)
    = Pending jpd ("https://" ++ u ++ "/artifactory/api/search/aql") q.
Proof.
  intros Hu Hs. destruct scope as [[nm ps]|].
  - destruct Hs as [Hp [n Hn]]. simpl in Hn.
    unfold startJob, jobLabel, aqlEndpoint, findInstance_query. simpl name. simpl paths.
    rewrite Hu, Hn. simpl bind. cbv iota.
    destruct Hp as [Hp | [roots Hp]]; simpl in Hp; subst ps.
    + simpl. eexists. reflexivity.
    + destruct roots as [|r roots]; [simpl; eexists; reflexivity|].
      simpl truthy. cbv iota.
      rewrite (pathCriteria_strings _ (r :: roots)) by discriminate.
      simpl. eexists. reflexivity.
  - rewrite (startJob_unscoped fullPath jpd u Hu). eexists. reflexivity.
Qed.

Lemma requestsOf_all_pending (fullPath : string) (relevant : list ScopeMatch) :
  (forall m, In m relevant ->
             exists e q, aqlEndpoint (url (fst m)) = inr e
                         /\ startJob false fullPath m = Pending (fst m) e q) ->
  Forall2 (fun request m => aqlEndpoint (url (fst m)) = inr (fst request))
          (requestsOf (startJobs false fullPath relevant)) relevant.
Proof.
  unfold startJobs. induction relevant as [|m relevant IH]; intros H; [constructor|].
  simpl. destruct (H m (or_introl eq_refl)) as [e [q [He ->]]]. simpl.
  constructor; [exact He|]. apply IH. intros m' Hin. apply H. right. exact Hin.
Qed.

(** X14.  No search is ever skipped: with a configuration whose roots are
    strings and whose urls and repo names convert to strings, scope
    resolution yields the relevant scopes in configuration order, and the
    worker makes exactly one request per resolved scope, in that order and
    to that scope's JPD, whatever the requests return and in whatever
    order they settle. *)
Theorem X14_one_request_per_scope (configString : string)
        (outcomes : nat -> PostOutcome) (order : list nat)
        (data : option BeforeUploadRequest) (rp : RepoPath) (config : Config) :
  essentialRepoPath data = Some rp ->
  Config_constructor configString = inr config ->
  stringRoots (jpds config) ->
  labelsConvert (jpds config) ->
  relevantJPDs (getJPDs config) (getDirectoryPathFromPath (path rp))
  = inr (scopesInOrder (jpds config) (getDirectoryPathFromPath (path rp)))
  /\ Forall2 (fun request m => aqlEndpoint (url (fst m)) = inr (fst request))
             (requests (worker configString outcomes order data))
             (scopesInOrder (jpds config) (getDirectoryPathFromPath (path rp))).
Proof.
  intros Hv Hc Hs Hl.
  destruct (relevantJPDs_stringRoots (jpds config)
              (getDirectoryPathFromPath (path rp)) Hs) as [relevant Hr].
  pose proof (relevantJPDs_in_order _ _ _ Hr) as Ho. rewrite <- Ho.
  split; [exact Hr|].
  rewrite (worker_resolved configString outcomes order data rp config relevant Hv Hc Hr).
  destruct relevant as [|m0 relevant]; [constructor|]. cbv zeta. cbn [requests].
  apply requestsOf_all_pending. intros [jpd scope] Hin. simpl fst.
  apply (relevantJPDs_characterised (jpds config) _ _ Hr jpd scope) in Hin.
  destruct Hin as [Hjpd Hscope].
  unfold stringRoots in Hs. rewrite Forall_forall in Hs. specialize (Hs jpd Hjpd).
  unfold labelsConvert in Hl. rewrite Forall_forall in Hl.
  destruct (Hl jpd Hjpd) as [[u Hu] Hnames].
  assert (Hq : exists q,
             startJob false (path rp) (jpd, scope)
             = Pending jpd ("https://" ++ u ++ "/artifactory/api/search/aql") q).
  { apply (startJob_stringPaths (path rp) jpd scope u Hu).
    destruct scope as [rc|]; [|exact I]. destruct Hscope as [Hrc _].
    rewrite Forall_forall in Hs, Hnames. split; [exact (Hs rc Hrc)|exact (Hnames rc Hrc)]. }
  destruct Hq as [q Hq]. eexists. exists q. split; [|exact Hq].
  unfold aqlEndpoint. rewrite Hu. reflexivity.
Qed.

(** X15.  When a repo scope has string roots, and the JPD's [url] and the
    repo's [name] convert to strings, the query does not mention the
    upload's directory: its criteria are the repo name, a wildcard match
    [root*] for every root of the scope (not only the root that covers the
    upload), and the file name.  Two uploads with the same file name get
    the same query. *)
Theorem X15_scoped_query_lists_every_root (jpd : JPDConfig) (nm : json)
        (roots : list string) (fullPath fullPath' u n : string) :
  roots <> [] ->
  getFileNameFromPath fullPath = getFileNameFromPath fullPath' ->
  toString (url jpd) = inr u ->
  toString nm = inr n ->
  let scope := (jpd, Some (mkRepoConfig nm (Some (JArr (map JStr roots))))) in
  startJob false fullPath scope = startJob false fullPath' scope
  /\ exists q,
      startJob false fullPath scope
      = Pending jpd ("https://" ++ u ++ "/artifactory/api/search/aql") q
      /\ criteriaOf q
         = [JObj [("repo", nm)];
            match roots with
            | [root] => JObj [("path", JObj [("$match", JStr (root ++ "*"))])]
            | _ => JObj [("$or",
                          JArr (map (fun root =>
                                       JObj [("path",
                                              JObj [("$match", JStr (root ++ "*"))])])
                                    roots))]
            end;
            nameCriteria (getFileNameFromPath fullPath)].
Proof.
  intros Hne Hfile Hu Hn scope.
  assert (Hjob : forall p,
             startJob false p scope
             = Pending jpd ("https://" ++ u ++ "/artifactory/api/search/aql")
                 (mkAqlQuery
                    (JObj [("$and",
                            JArr ([JObj [("repo", nm)]]
                                  ++ [match roots with
                                      | [root] =>
                                          JObj [("path",
                                                 JObj [("$match", JStr (root ++ "*"))])]
                                      | _ =>
                                          JObj [("$or",
                                                 JArr (map (fun root =>
                                                              JObj [("path",
                                                                     JObj [("$match",
                                                                            JStr (root ++ "*"))])])
                                                           roots))]
                                      end]
                                  ++ [nameCriteria (getFileNameFromPath p)]))])
                    ["repo"; "path"; "name"] (Some 1))).
  { intros p. unfold scope, startJob, jobLabel, aqlEndpoint, findInstance_query.
    simpl name. simpl paths. rewrite Hu, Hn. simpl bind. cbv iota.
    destruct roots as [|r [|r' roots]]; [contradiction|reflexivity|].
    simpl truthy. cbv iota.
    change (map JStr (r :: r' :: roots)) with (JStr r :: JStr r' :: map JStr roots).
    cbv iota.
    change (JStr r :: JStr r' :: map JStr roots) with (map JStr (r :: r' :: roots)).
    rewrite pathMatchClause_strings. reflexivity. }
  split.
  - rewrite (Hjob fullPath), (Hjob fullPath'), Hfile. reflexivity.
  - eexists. split; [apply Hjob|]. rewrite criteriaOf_query. reflexivity.
Qed.

(** ** Settlement *)

Lemma nth_error_startJobs (fullPath : string) (relevant : list ScopeMatch)
      (i : nat) (job : SearchJob) :
  nth_error (startJobs false fullPath relevant) i = Some job ->
  exists m, In m relevant /\ startJob false fullPath m = job.
Proof.
  intros H. apply nth_error_In in H. unfold startJobs in H.
  apply in_map_iff in H. destruct H as [m [Hm Hin]]. exists m. split; assumption.
Qed.

Lemma foundMessageFor_pending (fullPath fullPath' : string) (m : ScopeMatch)
      (jpd : JPDConfig) (e : string) (q : AqlQuery) (item : FoundItem) :
  startJob false fullPath m = Pending jpd e q ->
  exists message, foundMessageFor fullPath' jpd item = inr message
                  /\ truthyString message = true.
Proof.
  intros H. destruct (startJob_pending_shape fullPath m jpd e q H) as [_ [He _]].
  unfold aqlEndpoint in He. unfold foundMessageFor.
  destruct (toString (url jpd)) as [ex|u]; [discriminate|].
  eexists. split; reflexivity.
Qed.

(** X16.  The first request to settle with a non-empty result list decides
    the message: when the jobs that settle before job [i] find nothing and
    job [i] returns [item] first, the message for job [i]'s JPD and [item]
    can be built, and the search ends with it, whatever settles afterwards;
    with action [block] or [warn] that is the message of the response. *)
Theorem X16_first_settled_match_wins (configString : string)
        (outcomes : nat -> PostOutcome) (earlier later : list nat) (i : nat)
        (data : option BeforeUploadRequest)
        (rp : RepoPath) (config : Config) (relevant : list ScopeMatch)
        (jpd : JPDConfig) (endpoint : string) (q : AqlQuery)
        (item : FoundItem) (items : list FoundItem) :
  essentialRepoPath data = Some rp ->
  Config_constructor configString = inr config ->
  relevantJPDs (getJPDs config) (getDirectoryPathFromPath (path rp)) = inr relevant ->
  (forall k, In k earlier ->
             jobMatches (startJobs false (path rp) relevant) outcomes k = false) ->
  nth_error (startJobs false (path rp) relevant) i = Some (Pending jpd endpoint q) ->
  outcomes i = Resolved (Some (item :: items)) ->
  exists foundMessage,
    foundMessageFor (path rp) jpd item = inr foundMessage
    /\ settleAll (path rp) (startJobs false (path rp) relevant) outcomes
                 (earlier ++ i :: later) (mkSearchState false None)
       = mkSearchState true (Some foundMessage)
    /\ (action config = Some (JStr "block") \/ action config = Some (JStr "warn") ->
        exists resp,
          outcome (worker configString outcomes (earlier ++ i :: later) data) = inr resp
          /\ message resp = foundMessage).
Proof.
  intros Hv Hc Hr Hearlier Hj Ho.
  destruct (nth_error_startJobs _ _ _ _ Hj) as [m0 [_ Hm0]].
  destruct (foundMessageFor_pending (path rp) (path rp) m0 jpd endpoint q item Hm0)
    as [fm [Hfm Htruthy]].
  exists fm. split; [exact Hfm|].
  assert (Hst : settleAll (path rp) (startJobs false (path rp) relevant) outcomes
                          (earlier ++ i :: later) (mkSearchState false None)
                = mkSearchState true (Some fm)).
  { unfold settleAll. rewrite fold_left_app.
    assert (He : fold_left (settle (path rp) (startJobs false (path rp) relevant) outcomes)
                           earlier (mkSearchState false None)
                 = mkSearchState false None).
    { clear -Hearlier. induction earlier as [|k earlier IH]; [reflexivity|]. simpl.
      rewrite settle_no_match by (apply Hearlier; left; reflexivity).
      apply IH. intros k' Hin. apply Hearlier. right. exact Hin. }
    rewrite He. simpl fold_left.
    assert (Hi : settle (path rp) (startJobs false (path rp) relevant) outcomes
                        (mkSearchState false None) i
                 = mkSearchState true (Some fm)).
    { unfold settle. rewrite Hj, Ho. simpl runAql. simpl negb. unfold ret. cbv iota.
      rewrite Hfm. reflexivity. }
    rewrite Hi.
    apply (settleAll_frozen (path rp) _ outcomes later). reflexivity. }
  split; [exact Hst|]. intros Ha.
  rewrite (worker_resolved configString outcomes _ data rp config relevant Hv Hc Hr).
  destruct relevant as [|m relevant]; [destruct i; discriminate|].
  cbv zeta. rewrite Hst.
  unfold policyDecision.
  cbn [found foundMessage]. rewrite Htruthy.
  destruct Ha as [-> | ->]; eexists; split; reflexivity.
Qed.

(** X17.  The worker proceeds exactly when nothing is found: after
    validation and scope resolution, it returns a response with status
    [PROCEED] if and only if no request that settles is in flight with a
    non-empty result list. *)
Theorem X17_proceed_iff_nothing_found (configString : string)
        (outcomes : nat -> PostOutcome) (order : list nat)
        (data : option BeforeUploadRequest)
        (rp : RepoPath) (config : Config) (relevant : list ScopeMatch) :
  essentialRepoPath data = Some rp ->
  Config_constructor configString = inr config ->
  relevantJPDs (getJPDs config) (getDirectoryPathFromPath (path rp)) = inr relevant ->
  (exists resp,
      outcome (worker configString outcomes order data) = inr resp
      /\ status resp = UPLOAD_PROCEED)
  <-> (forall i, In i order ->
                 jobMatches (startJobs false (path rp) relevant) outcomes i = false).
Proof.
  intros Hv Hc Hr.
  rewrite (worker_resolved configString outcomes order data rp config relevant Hv Hc Hr).
  destruct relevant as [|m relevant].
  - split; [|intros _; eexists; split; reflexivity].
    intros _ i _. unfold jobMatches. destruct i; reflexivity.
  - cbv zeta. cbn [outcome].
    set (jobs := startJobs false (path rp) (m :: relevant)).
    set (st := settleAll (path rp) jobs outcomes order (mkSearchState false None)).
    assert (Hfound : found st = existsb (jobMatches jobs outcomes) order).
    { unfold st. rewrite settleAll_found. reflexivity. }
    destruct (existsb (jobMatches jobs outcomes) order) eqn:Hex.
    + split.
      * intros [resp [Hresp Hstatus]]. exfalso.
        pose proof (policyDecision_found st (action config) (path rp) Hfound) as Hd.
        destruct (valueToString (action config)) as [e|text].
        -- rewrite Hd in Hresp. discriminate.
        -- destruct Hd as [s [msg [Hd Hs]]]. rewrite Hd in Hresp.
           injection Hresp as <-. cbn [status] in Hstatus.
           destruct Hs as [-> | ->]; discriminate.
      * intros Hall. apply existsb_exists in Hex. destruct Hex as [i [Hin Hm]].
        rewrite (Hall i Hin) in Hm. discriminate.
    + split.
      * intros _ i Hin.
        destruct (jobMatches jobs outcomes i) eqn:Hm; [|reflexivity].
        assert (Hc' : existsb (jobMatches jobs outcomes) order = true)
          by (apply existsb_exists; exists i; split; assumption).
        rewrite Hc' in Hex. discriminate.
      * intros _. rewrite (policyDecision_not_found st _ _ Hfound).
        eexists. split; reflexivity.
Qed.

Lemma policyDecision_status (st st' : SearchState) (action : value)
      (fullPath fullPath' : string) :
  found st = found st' ->
  statusOf (policyDecision st action fullPath)
  = statusOf (policyDecision st' action fullPath').
Proof.
  intros Hf. unfold policyDecision. rewrite Hf.
  destruct (found st'); [|reflexivity].
  destruct action as [[| | |a| |]|]; try reflexivity.
  destruct (String.eqb a "block"); [reflexivity|].
  destruct (String.eqb a "warn"); reflexivity.
Qed.

Lemma worker_unresolved (configString : string) (outcomes : nat -> PostOutcome)
      (order : list nat) (data : option BeforeUploadRequest)
      (rp : RepoPath) (config : Config) (e : Exception) :
  essentialRepoPath data = Some rp ->
  Config_constructor configString = inr config ->
  relevantJPDs (getJPDs config) (getDirectoryPathFromPath (path rp)) = inl e ->
  worker configString outcomes order data = mkRun (inl e) [].
Proof.
  intros Hv Hc Hr. unfold worker. rewrite Hv, Hc. simpl bind. rewrite Hr. reflexivity.
Qed.

Lemma existsb_Permutation {A : Type} (f : A -> bool) (l l' : list A) :
  Permutation l l' -> existsb f l = existsb f l'.
Proof.
  induction 1 as [|x l l' _ IH|x y l|l l' l'' _ IH1 _ IH2]; simpl.
  - reflexivity.
  - rewrite IH. reflexivity.
  - destruct (f x), (f y); reflexivity.
  - rewrite IH1. exact IH2.
Qed.

(** X18.  The order in which the requests settle can change the message
    and nothing else: two runs that differ only by a permutation of the
    settlement order make the same requests and end with the same status
    (or the same exception). *)
Theorem X18_status_ignores_settlement_order (configString : string)
        (outcomes : nat -> PostOutcome) (order order' : list nat)
        (data : option BeforeUploadRequest) :
  Permutation order order' ->
  requests (worker configString outcomes order data)
  = requests (worker configString outcomes order' data)
  /\ match outcome (worker configString outcomes order data),
           outcome (worker configString outcomes order' data) with
     | inr resp, inr resp' =>
         status resp = status resp'
         /\ modifiedRepoPath resp = modifiedRepoPath resp'
     | inl e, inl e' => e = e'
     | _, _ => False
     end.
Proof.
  intros Hperm.
  destruct (essentialRepoPath data) as [rp|] eqn:Hv.
  - destruct (Config_constructor_total configString) as [config Hc].
    destruct (relevantJPDs (getJPDs config) (getDirectoryPathFromPath (path rp)))
      as [e|relevant] eqn:Hr.
    + rewrite !(worker_unresolved configString _ _ data rp config e Hv Hc Hr).
      split; reflexivity.
    + rewrite !(worker_resolved configString _ _ data rp config relevant Hv Hc Hr).
      destruct relevant as [|m relevant]; [split; [|split]; reflexivity|].
      cbv zeta. cbn [requests outcome].
      split; [reflexivity|].
      assert (Hs : statusOf (policyDecision
                               (settleAll (path rp)
                                          (startJobs false (path rp) (m :: relevant))
                                          outcomes order (mkSearchState false None))
                               (action config) (path rp))
                   = statusOf (policyDecision
                                 (settleAll (path rp)
                                            (startJobs false (path rp) (m :: relevant))
                                            outcomes order' (mkSearchState false None))
                                 (action config) (path rp))).
      { apply policyDecision_status. rewrite !settleAll_found. f_equal.
        apply existsb_Permutation. exact Hperm. }
      destruct (policyDecision _ _ _) as [e|[s msg]];
        destruct (policyDecision _ _ _) as [e'|[s' msg']]; simpl in Hs;
        try discriminate; injection Hs as ->; simpl; [reflexivity|].
      split; reflexivity.
  - rewrite !(worker_invalid configString _ _ data Hv). split; [|split]; reflexivity.
Qed.


(** ** Configurations that cannot be used *)

Lemma worker_without_jpds (configString : string) (outcomes : nat -> PostOutcome)
      (order : list nat) (data : option BeforeUploadRequest)
      (rp : RepoPath) (a : value) :
  essentialRepoPath data = Some rp ->
  Config_constructor configString = inr (mkConfig [] a) ->
  worker configString outcomes order data
  = mkRun (inr (mkBeforeUploadResponse UPLOAD_PROCEED
                  "Artifact path is not in configured search scope for any JPD. Upload allowed."
                  (Some rp) []))
          [].
Proof.
  intros Hv Hc.
  exact (worker_resolved configString outcomes order data rp (mkConfig [] a) []
                         Hv Hc eq_refl).
Qed.

Lemma Config_constructor_unusable (configString : string) :
  configString = "" \/ (exists e, JSON_parse configString = inl e) ->
  Config_constructor configString = inr (mkConfig [] (Some (JStr "warn"))).
Proof.
  intros [-> | [e He]]; [reflexivity|].
  rewrite Config_constructor_unfold.
  destruct (truthyString configString); [|reflexivity].
  rewrite He. reflexivity.
Qed.

(** X19.  The worker fails open on its configuration: when the text is
    empty, is rejected by [JSON.parse], or parses to a document without a
    [jpds] array, every valid upload is allowed at once, and no request is
    made to any JPD. *)
Theorem X19_unusable_configuration_allows_upload (configString : string)
        (outcomes : nat -> PostOutcome) (order : list nat)
        (data : option BeforeUploadRequest) (rp : RepoPath) :
  essentialRepoPath data = Some rp ->
  (configString = ""
   \/ (exists e, JSON_parse configString = inl e)
   \/ (exists rawJSON, JSON_parse configString = inr rawJSON
                       /\ forall entries, get rawJSON "jpds" <> inr (Some (JArr entries)))) ->
  worker configString outcomes order data
  = mkRun (inr (mkBeforeUploadResponse UPLOAD_PROCEED
                  "Artifact path is not in configured search scope for any JPD. Upload allowed."
                  (Some rp) []))
          [].
Proof.
  intros Hv [H | [H | [rawJSON [Hp Hj]]]].
  - apply (worker_without_jpds _ _ _ _ rp (Some (JStr "warn")) Hv).
    apply Config_constructor_unusable. left. exact H.
  - apply (worker_without_jpds _ _ _ _ rp (Some (JStr "warn")) Hv).
    apply Config_constructor_unusable. right. exact H.
  - assert (Hc : exists a, Config_constructor configString = inr (mkConfig [] a)).
    { rewrite Config_constructor_unfold.
      destruct (truthyString configString); [|eexists; reflexivity].
      rewrite Hp. simpl bind. unfold configOfDocument.
      destruct (get rawJSON "jpds") as [e|j] eqn:Hg; simpl; [eexists; reflexivity|].
      destruct j as [[| | | |entries|]|]; simpl;
        try (destruct (get rawJSON "action"); simpl; eexists; reflexivity).
      elim (Hj entries). reflexivity. }
    destruct Hc as [a Hc]. exact (worker_without_jpds _ _ _ _ rp a Hv Hc).
Qed.

(** ** The configuration store *)


(** X21.  A configuration served as parsed JSON is read like the same
    document served as text: provided [JSON.parse] undoes [JSON.stringify]
    on the document and the text is not empty, the constructor builds from
    [loadConfig]'s result what it builds from the document itself. *)
Theorem X21_object_data_is_read_as_its_text (platformHttp_get : string -> GetOutcome)
        (repo : string) (response : HttpResponse) (document : json) :
  platformHttp_get (configAddress repo) = GetResolved (Some response) ->
  response_status response = 200 ->
  response_data response = Some document ->
  typeofObject document = true ->
  JSON_stringify document <> "" ->
  JSON_parse (JSON_stringify document) = inr document ->
  loadConfig platformHttp_get repo = JSON_stringify document
  /\ Config_constructor (loadConfig platformHttp_get repo)
     = try_catch (configOfDocument document) (fun _ => ret defaultConfig).
Proof.
  intros Hget Hs Hd Ho Hne Hround.
  assert (Hl : loadConfig platformHttp_get repo = JSON_stringify document).
  { unfold loadConfig. rewrite Hget, Hs, Hd. simpl Nat.eqb. cbv iota.
    destruct document; try discriminate; reflexivity. }
  split; [exact Hl|].
  rewrite Hl, Config_constructor_unfold.
  apply truthyString_true in Hne. rewrite Hne, Hround. reflexivity.
Qed.

(** ** Logging thresholds *)

(** X22.  The logging thresholds are nested and monotone: a method that
    writes at one level writes at every level of higher priority; whenever
    [debug] writes so does [info], whenever [info] writes so does [warn],
    whenever [warn] writes so does [error]; at level [none] only [always]
    writes, and [always] writes at every level. *)
Theorem X22_log_thresholds_nested (level level' : LogLevel) (method : LogMethod) :
  (logLevelPriority level <= logLevelPriority level' ->
   logWrites level method = true -> logWrites level' method = true)
  /\ (logWrites level log_debug = true -> logWrites level log_info = true)
  /\ (logWrites level log_info = true -> logWrites level log_warn = true)
  /\ (logWrites level log_warn = true -> logWrites level log_error = true)
  /\ (logWrites level_none method = true -> method = log_always)
  /\ logWrites level log_always = true.
Proof.
  repeat split.
  - destruct level, level', method; simpl; intros Hle Hw;
      try reflexivity; try discriminate; lia.
  - destruct level; simpl; intros H; try discriminate; reflexivity.
  - destruct level; simpl; intros H; try discriminate; reflexivity.
  - destruct level; simpl; intros H; try discriminate; reflexivity.
  - destruct method; simpl; intros H; try discriminate; reflexivity.
Qed.

(** ** What every response carries *)

Lemma policyDecision_message (st : SearchState) (action : value) (fullPath : string) :
  (foundMessage st = None \/ exists m, foundMessage st = Some m /\ m <> "") ->
  forall status message,
    policyDecision st action fullPath = inr (status, message) ->
    message <> "" /\ status <> UPLOAD_UNSPECIFIED.
Proof.
  intros Hm status message. unfold policyDecision.
  destruct (found st);
    [|intros H; injection H as <- <-; split; discriminate].
  assert (Hmsg : match foundMessage st with
                 | Some m => if truthyString m then m
                             else "Duplicate artifact found. Upload will not proceed."
                 | None => "Duplicate artifact found. Upload will not proceed."
                 end <> "").
  { destruct Hm as [-> | [m [-> Hne]]]; [discriminate|].
    apply truthyString_true in Hne. rewrite Hne. apply truthyString_true. exact Hne. }
  assert (Hu : unknownAction action = inr (status, message) ->
               message <> "" /\ status <> UPLOAD_UNSPECIFIED).
  { unfold unknownAction. destruct (valueToString action) as [e|text]; simpl;
      [discriminate|]. intros H. injection H as <- <-. split; discriminate. }
  destruct action as [[| | |a| |]|]; try exact Hu.
  destruct (String.eqb a "block");
    [intros H; injection H as <- <-; split; [exact Hmsg|discriminate]|].
  destruct (String.eqb a "warn"); [|exact Hu].
  intros H; injection H as <- <-; split; [exact Hmsg|discriminate].
Qed.

Lemma settle_message (fullPath : string) (jobs : list SearchJob)
      (outcomes : nat -> PostOutcome) (st : SearchState) (i : nat) :
  (foundMessage st = None \/ exists m, foundMessage st = Some m /\ m <> "") ->
  foundMessage (settle fullPath jobs outcomes st i) = None
  \/ exists m, foundMessage (settle fullPath jobs outcomes st i) = Some m /\ m <> "".
Proof.
  intros H. unfold settle.
  destruct (nth_error jobs i) as [[| |jpd endpoint q]|]; try exact H.
  destruct (runAql (outcomes i)) as [e|[|item items]]; try exact H.
  destruct (found st); [exact H|]. simpl negb. cbv iota.
  unfold foundMessageFor. destruct (toString (url jpd)) as [e|u]; simpl; [exact H|].
  right. eexists. split; [reflexivity|]. discriminate.
Qed.

Lemma settleAll_message (fullPath : string) (jobs : list SearchJob)
      (outcomes : nat -> PostOutcome) (order : list nat) (st : SearchState) :
  (foundMessage st = None \/ exists m, foundMessage st = Some m /\ m <> "") ->
  foundMessage (settleAll fullPath jobs outcomes order st) = None
  \/ exists m, foundMessage (settleAll fullPath jobs outcomes order st) = Some m
               /\ m <> "".
Proof.
  unfold settleAll. revert st.
  induction order as [|i order IH]; intros st Hst; [exact Hst|].
  simpl. apply IH. apply settle_message. exact Hst.
Qed.

(** X23.  Every response the worker returns says what was decided: its
    status is [PROCEED], [STOP] or [WARN], never the unspecified status the
    handler starts with, and its message is not empty. *)
Theorem X23_response_is_never_blank (configString : string)
        (outcomes : nat -> PostOutcome) (order : list nat)
        (data : option BeforeUploadRequest) (resp : BeforeUploadResponse) :
  outcome (worker configString outcomes order data) = inr resp ->
  status resp <> UPLOAD_UNSPECIFIED /\ message resp <> "".
Proof.
  destruct (essentialRepoPath data) as [rp|] eqn:Hv.
  - destruct (Config_constructor_total configString) as [config Hc].
    destruct (relevantJPDs (getJPDs config) (getDirectoryPathFromPath (path rp)))
      as [e|relevant] eqn:Hr.
    + rewrite (worker_unresolved configString _ _ data rp config e Hv Hc Hr).
      discriminate.
    + rewrite (worker_resolved configString _ _ data rp config relevant Hv Hc Hr).
      destruct relevant as [|m relevant].
      * intros H. injection H as <-. split; discriminate.
      * cbv zeta. cbn [outcome].
        destruct (policyDecision _ _ _) as [e|[s msg]] eqn:Hd; simpl; [discriminate|].
        intros H. injection H as <-. cbn [status message].
        apply and_comm. refine (policyDecision_message _ _ _ _ s msg Hd).
        apply settleAll_message. left. reflexivity.
  - rewrite (worker_invalid configString _ _ data Hv).
    intros H. injection H as <-. split; discriminate.
Qed.

End Worker.

(** * Instances *)

Import Sample.

(** C1 as stated fails: with the JPD [a] configured without repos, the
    upload of [a/b/f.txt] to repository [libs] makes one request, whose
    criteria are the path and the name only; no criterion names [libs], or
    any repository. *)
Lemma C1_counterexample :
  exists q,
    requests (worker (parsesTo allReposDoc) noLength noLength "config"
                     (fun _ => Resolved None) [0] (uploadOf "libs" "a/b/f.txt"))
    = [("https://a/artifactory/api/search/aql", q)]
    /\ criteriaOf q = [JObj [("path", JStr "a/b")];
                       JObj [("name", JObj [("$match", JStr "f.txt")])]]
    /\ ~ In (JObj [("repo", JStr "libs")]) (criteriaOf q)
    /\ (forall r, ~ In (JObj [("repo", r)]) (criteriaOf q)).
Proof.
  eexists. split; [reflexivity|]. split; [reflexivity|].
  split.
  - intros [H|[H|[]]]; discriminate.
  - intros r [H|[H|[]]]; discriminate.
Qed.

Lemma C1_witness :
  startJob noLength noLength false "a/b/f.txt" (jpdA, None)
  = Pending jpdA "https://a/artifactory/api/search/aql"
      (mkAqlQuery
         (JObj [("$and",
                 JArr [JObj [("path", JStr "a/b")];
                       JObj [("name", JObj [("$match", JStr "f.txt")])]])])
         ["repo"; "path"; "name"] (Some 1))
  /\ startJob noLength noLength false "a/b/f.txt"
              (mkJPDConfig (JObj [("toString", JNum (mkNumber true "1"))]) [], None)
     = Failed.
Proof.
  split.
  - destruct (C1_unscoped_query noLength noLength jpdA
                (mkRepoPath "libs" "a/b/f.txt" "libs:a/b/f.txt" false false))
      as [Hpending _].
    exact (Hpending "a" eq_refl).
  - destruct (C1_unscoped_query noLength noLength
                (mkJPDConfig (JObj [("toString", JNum (mkNumber true "1"))]) [])
                (mkRepoPath "libs" "a/b/f.txt" "libs:a/b/f.txt" false false))
      as [_ Hfailed].
    exact (Hfailed TypeError eq_refl).
Defined.

Lemma C2_witness :
  Config_constructor (parsesTo noReposDoc) "config" = inr (mkConfig [] (Some (JStr "block")))
  /\ requests (worker (parsesTo noReposDoc) noLength noLength "config"
                      (fun _ => Rejected) [] (uploadOf "libs" "a/b/f.txt")) = [].
Proof.
  destruct (C2_target_without_repos_dropped
              (parsesTo noReposDoc) noLength noLength "config"
              [("url", JStr "a.jfrog.io")] (JStr "a.jfrog.io") (JStr "block")
              (fun _ => Rejected) [] "libs" "a/b/f.txt")
    as [_ [Hc Hw]]; try reflexivity; try discriminate.
  split; [exact Hc|]. rewrite Hw. reflexivity.
Defined.

(** C3 as stated fails: root [foo/] covers the directory of
    [foo/bar/file.txt], which neither equals [foo/] nor starts with
    [foo//]. *)
Lemma C3_counterexample :
  repoRelevant (getDirectoryPathFromPath "foo/bar/file.txt")
               (mkRepoConfig (JStr "r") (Some (JArr (map JStr ["foo/"])))) = inr true
  /\ ~ specPathRule ["foo/"] (getDirectoryPathFromPath "foo/bar/file.txt").
Proof.
  split; [reflexivity|].
  intros [root [[<-|[]] [H|H]]]; vm_compute in H; discriminate.
Qed.

Lemma C3_witness :
  ["immutable"; "foo/bar"] <> []
  /\ (repoRelevant "foo/bar/baz" (mkRepoConfig (JStr "r")
                                     (Some (JArr (map JStr ["immutable"; "foo/bar"]))))
      = inr true
      <-> exists root, In root ["immutable"; "foo/bar"]
            /\ ("foo/bar/baz" = root
                \/ (endsWith root "/" = false /\ String.prefix (root ++ "/") "foo/bar/baz" = true)
                \/ (endsWith root "/" = true /\ String.prefix root "foo/bar/baz" = true))).
Proof.
  split; [discriminate|].
  apply (C3_path_scope_match (JStr "r") ["immutable"; "foo/bar"] "foo/bar/baz").
  discriminate.
Defined.

Lemma C4_witness :
  statusOf (policyDecision (mkSearchState false None) (Some (JStr "block")) "a/f.txt")
  = inr UPLOAD_PROCEED
  /\ statusOf (policyDecision (mkSearchState true None) (Some (JStr "block")) "a/f.txt")
     = inr UPLOAD_STOP
  /\ statusOf (policyDecision (mkSearchState true None) (Some (JStr "warn")) "a/f.txt")
     = inr UPLOAD_WARN
  /\ policyDecision (mkSearchState true None) (Some (JStr "allow")) "a/f.txt"
     = inr (UPLOAD_STOP, "Unknown action in config. Upload will not proceed.")
  /\ policyDecision (mkSearchState true None) None "a/f.txt"
     = inr (UPLOAD_STOP, "Unknown action in config. Upload will not proceed.")
  /\ policyDecision (mkSearchState true None)
                    (Some (JObj [("toString", JNum (mkNumber true "1"))])) "a/f.txt"
     = inl TypeError.
Proof.
  split; [|split; [|split; [|split; [|split]]]].
  - destruct (C4_policy_table (mkSearchState false None) (Some (JStr "block")) "a/f.txt")
      as [_ [H _]].
    apply H. reflexivity.
  - destruct (C4_policy_table (mkSearchState true None) (Some (JStr "block")) "a/f.txt")
      as [_ [_ [H _]]].
    apply H; reflexivity.
  - destruct (C4_policy_table (mkSearchState true None) (Some (JStr "warn")) "a/f.txt")
      as [_ [_ [_ [H _]]]].
    apply H; reflexivity.
  - destruct (C4_policy_table (mkSearchState true None) (Some (JStr "allow")) "a/f.txt")
      as [_ [_ [_ [_ [H _]]]]].
    apply (H "allow"); [reflexivity|discriminate|discriminate|reflexivity].
  - destruct (C4_policy_table (mkSearchState true None) None "a/f.txt")
      as [_ [_ [_ [_ [H _]]]]].
    apply (H "undefined"); [reflexivity|discriminate|discriminate|reflexivity].
  - destruct (C4_policy_table (mkSearchState true None)
                (Some (JObj [("toString", JNum (mkNumber true "1"))])) "a/f.txt")
      as [_ [_ [_ [_ [_ H]]]]].
    apply H; reflexivity.
Defined.

Lemma C5_witness :
  (exists resp,
      outcome (worker (parsesTo scopedDoc) noLength noLength "config"
                      (fun _ => Resolved (Some [hit])) [0]
                      (uploadOf "other" "anything/file.txt")) = inr resp
      /\ status resp = UPLOAD_PROCEED)
  /\ requests (worker (parsesTo scopedDoc) noLength noLength "config"
                      (fun _ => Resolved (Some [hit])) [0]
                      (uploadOf "other" "anything/file.txt")) = [].
Proof.
  eapply (C5_no_scope_fast_path (parsesTo scopedDoc) noLength noLength "config"
            (fun _ => Resolved (Some [hit])) [0] (uploadOf "other" "anything/file.txt"));
    reflexivity.
Defined.

Lemma C6_witness :
  Config_constructor unparsable "{not json" = inr (mkConfig [] (Some (JStr "warn")))
  /\ Config_constructor unparsable "" = inr (mkConfig [] (Some (JStr "warn"))).
Proof.
  split.
  - apply (C6_fail_open_config unparsable "{not json").
    right. exists SyntaxError. reflexivity.
  - apply (C6_fail_open_config unparsable ""). left. reflexivity.
Defined.

Lemma C7_witness :
  exists resp,
    outcome (worker (parsesTo scopedDoc) noLength noLength "config"
                    (fun _ => Rejected) [0]
                    (uploadOf "r" "immutable/x/file.txt")) = inr resp
    /\ status resp = UPLOAD_PROCEED.
Proof.
  destruct (C7_remote_error_is_no_match
              (parsesTo scopedDoc) noLength noLength "config"
              (fun _ => Rejected) [0] (uploadOf "r" "immutable/x/file.txt")
              (mkRepoPath "r" "immutable/x/file.txt" "r:immutable/x/file.txt" false false)
              (mkConfig [scopedJPD] (Some (JStr "block")))
              [(scopedJPD, Some scopedRepo)] eq_refl eq_refl eq_refl)
    as [_ [_ [_ Hall]]].
  apply Hall. reflexivity.
Defined.

Lemma C8_witness :
  (forall resp,
      outcome (worker (parsesTo scopedDoc) noLength noLength "config"
                      (fun _ => Resolved (Some [hit])) [0]
                      (uploadOf "r" "immutable/x/file.txt")) = inr resp ->
      status resp <> UPLOAD_PROCEED)
  /\ exists resp,
      outcome (worker (parsesTo scopedDoc) noLength noLength "config"
                      (fun _ => Resolved (Some [hit])) [0]
                      (uploadOf "r" "immutable/x/file.txt")) = inr resp
      /\ (status resp = UPLOAD_STOP \/ status resp = UPLOAD_WARN).
Proof.
  exact (C8_match_never_proceeds
           (parsesTo scopedDoc) noLength noLength "config"
           (fun _ => Resolved (Some [hit])) [0] (uploadOf "r" "immutable/x/file.txt")
           (mkRepoPath "r" "immutable/x/file.txt" "r:immutable/x/file.txt" false false)
           (mkConfig [scopedJPD] (Some (JStr "block")))
           [(scopedJPD, Some scopedRepo)] 0 scopedJPD
           "https://a/artifactory/api/search/aql" scopedQuery hit []
           eq_refl eq_refl eq_refl eq_refl eq_refl (or_introl eq_refl)).
Defined.

(** C9 as stated fails: a request for repository [libs] with an empty
    path fails validation, and the response carries no identity. *)
Lemma C9_counterexample :
  exists resp,
    outcome (worker (parsesTo scopedDoc) noLength noLength "config"
                    (fun _ => Rejected) [] (uploadOf "libs" "")) = inr resp
    /\ identityOf (uploadOf "libs" "") = Some (mkRepoPath "libs" "" "libs:" false false)
    /\ modifiedRepoPath resp = None
    /\ modifiedRepoPath resp <> identityOf (uploadOf "libs" "").
Proof.
  eexists. split; [reflexivity|]. split; [reflexivity|]. split; [reflexivity|].
  discriminate.
Qed.

Lemma C9_witness :
  outcome (worker (parsesTo scopedDoc) noLength noLength "config"
                  (fun _ => Resolved (Some [hit])) [0]
                  (uploadOf "r" "immutable/x/file.txt"))
  = inr (mkBeforeUploadResponse UPLOAD_STOP
           "Artifact matching immutable/x/file.txt already exists in JPD: a:r/immutable/x/file.txt"
           (Some (mkRepoPath "r" "immutable/x/file.txt" "r:immutable/x/file.txt" false false))
           [])
  /\ headers (mkBeforeUploadResponse UPLOAD_STOP
                "Artifact matching immutable/x/file.txt already exists in JPD: a:r/immutable/x/file.txt"
                (Some (mkRepoPath "r" "immutable/x/file.txt" "r:immutable/x/file.txt" false false))
                []) = []
  /\ modifiedRepoPath
        (mkBeforeUploadResponse UPLOAD_STOP
           "Artifact matching immutable/x/file.txt already exists in JPD: a:r/immutable/x/file.txt"
           (Some (mkRepoPath "r" "immutable/x/file.txt" "r:immutable/x/file.txt" false false))
           [])
      = identityOf (uploadOf "r" "immutable/x/file.txt").
Proof.
  split; [reflexivity|].
  destruct (C9_response_frame (parsesTo scopedDoc) noLength noLength "config"
              (fun _ => Resolved (Some [hit])) [0]
              (uploadOf "r" "immutable/x/file.txt")
              (mkBeforeUploadResponse UPLOAD_STOP
                 "Artifact matching immutable/x/file.txt already exists in JPD: a:r/immutable/x/file.txt"
                 (Some (mkRepoPath "r" "immutable/x/file.txt" "r:immutable/x/file.txt"
                                   false false))
                 [])
              eq_refl) as [Hh [Hs _]].
  split; [exact Hh|].
  destruct (Hs (mkRepoPath "r" "immutable/x/file.txt" "r:immutable/x/file.txt" false false)
               eq_refl) as [Hm Hi].
  rewrite Hm, Hi. reflexivity.
Defined.

(** C10 as stated fails: the repo scope with the single root [""] has a
    non-empty [paths] and is relevant to the root-level upload [file.txt]. *)
Lemma C10_counterexample :
  contains "/" "file.txt" = false
  /\ repoRelevant (getDirectoryPathFromPath "file.txt")
                  (mkRepoConfig (JStr "r") (Some (JArr [JStr ""]))) = inr true.
Proof.
  split; reflexivity.
Qed.

Lemma C10_witness :
  getDirectoryPathFromPath "file.txt" = ""
  /\ repoRelevant (getDirectoryPathFromPath "file.txt")
                  (mkRepoConfig (JStr "r") (Some (JArr (map JStr ["immutable"]))))
     = inr false
  /\ exists q,
      startJob noLength noLength false "file.txt" (jpdA, None)
      = Pending jpdA "https://a/artifactory/api/search/aql" q
      /\ In (JObj [("path", JStr ".")]) (criteriaOf q).
Proof.
  destruct (C10_root_level_upload noLength noLength "file.txt" eq_refl)
    as [Hd [Hr [Hq _]]].
  split; [exact Hd|]. split.
  - apply Hr; [discriminate|]. intros [H|[]]. discriminate.
  - exact (Hq jpdA "a" eq_refl).
Defined.

(** ** The repository's tests, replayed *)

(** [should block upload when duplicate found], with the example of the
    specification: the message names the JPD, the repo and the found path. *)
Example replay_block_on_duplicate :
  outcome (worker (parsesTo scopedDoc) noLength noLength "config"
                  (fun _ => Resolved (Some [hit])) [0]
                  (uploadOf "r" "immutable/x/file.txt"))
  = inr (mkBeforeUploadResponse UPLOAD_STOP
           "Artifact matching immutable/x/file.txt already exists in JPD: a:r/immutable/x/file.txt"
           (Some (mkRepoPath "r" "immutable/x/file.txt" "r:immutable/x/file.txt" false false))
           []).
Proof. reflexivity. Qed.

(** [should short-circuit on first duplicate found]: both requests are made,
    and the message names the first JPD in either order of settlement. *)
Example replay_two_targets :
  forall order, order = [0; 1] \/ order = [1; 0] ->
  let run := worker (parsesTo twoTargetsDoc) noLength noLength "config"
                    firstHits order (uploadOf "test-repo" "test/path/file.txt") in
  List.length (requests run) = 2
  /\ outcome run
     = inr (mkBeforeUploadResponse UPLOAD_STOP
              "Artifact matching test/path/file.txt already exists in JPD: first.jfrog.io:test-repo/test/path/file.txt"
              (Some (mkRepoPath "test-repo" "test/path/file.txt"
                                "test-repo:test/path/file.txt" false false))
              []).
Proof. intros order [-> | ->]; split; reflexivity. Qed.

(** [should generate correct AQL for multiple paths], and a bare repo name
    searched in the upload's own directory; the duplicate is reported with
    [WARN]. *)
Example replay_multiple_paths :
  worker (parsesTo multiPathDoc) noLength noLength "config"
         firstHits [1; 0] (uploadOf "test-repo" "path1/file.txt")
  = mkRun
      (inr (mkBeforeUploadResponse UPLOAD_WARN
              "Artifact matching path1/file.txt already exists in JPD: test.jfrog.io:test-repo/test/path/file.txt"
              (Some (mkRepoPath "test-repo" "path1/file.txt"
                                "test-repo:path1/file.txt" false false))
              []))
      [("https://test.jfrog.io/artifactory/api/search/aql",
        mkAqlQuery
          (JObj [("$and",
                  JArr [JObj [("repo", JStr "test-repo")];
                        JObj [("$or",
                               JArr [JObj [("path", JObj [("$match", JStr "path1*")])];
                                     JObj [("path", JObj [("$match", JStr "path2*")])]])];
                        JObj [("name", JObj [("$match", JStr "file.txt")])]])])
          ["repo"; "path"; "name"] (Some 1));
       ("https://test.jfrog.io/artifactory/api/search/aql",
        mkAqlQuery
          (JObj [("$and",
                  JArr [JObj [("repo", JStr "whole-repo")];
                        JObj [("path", JStr "path1")];
                        JObj [("name", JObj [("$match", JStr "file.txt")])]])])
          ["repo"; "path"; "name"] (Some 1))].
Proof. reflexivity. Qed.

(** [should handle AQL query error] and [should handle missing metadata]. *)
Example replay_errors :
  outcome (worker (parsesTo scopedDoc) noLength noLength "config"
                  (fun _ => Rejected) [0] (uploadOf "r" "immutable/x/file.txt"))
  = inr (mkBeforeUploadResponse UPLOAD_PROCEED
           "Artifact immutable/x/file.txt can be uploaded. No duplicates found."
           (Some (mkRepoPath "r" "immutable/x/file.txt" "r:immutable/x/file.txt" false false))
           [])
  /\ worker (parsesTo scopedDoc) noLength noLength "config"
            (fun _ => Rejected) [] (uploadOf "" "")
     = mkRun (inr (mkBeforeUploadResponse UPLOAD_STOP
                     "Essential data missing in the request payload." None []))
             [].
Proof. split; reflexivity. Qed.

(** A root that is not a string makes scope resolution, and with it the
    worker, throw. *)
Example replay_ill_typed_root :
  worker (parsesTo (JObj [("jpds",
                           JArr [JObj [("url", JStr "a");
                                       ("repos", JArr [JObj [("name", JStr "r");
                                                             ("paths", JArr [JNull])]])]])]))
         noLength noLength "config" (fun _ => Rejected) [] (uploadOf "r" "x/file.txt")
  = mkRun (inl TypeError) [].
Proof. reflexivity. Qed.

(** An action that cannot be converted to a string, met after a duplicate
    was found, makes the worker throw where the warning about the unknown
    action is built: the request is made, and there is no response. *)
Example replay_unconvertible_action :
  worker (parsesTo unconvertibleActionDoc) noLength noLength "config"
         (fun _ => Resolved (Some [hit])) [0] (uploadOf "libs" "a/b/f.txt")
  = mkRun (inl TypeError)
          [("https://a/artifactory/api/search/aql",
            mkAqlQuery
              (JObj [("$and",
                      JArr [JObj [("path", JStr "a/b")];
                            JObj [("name", JObj [("$match", JStr "f.txt")])]])])
              ["repo"; "path"; "name"] (Some 1))]
  /\ exists resp,
      outcome (worker (parsesTo unconvertibleActionDoc) noLength noLength "config"
                      (fun _ => Resolved (Some [])) [0] (uploadOf "libs" "a/b/f.txt"))
      = inr resp
      /\ status resp = UPLOAD_PROCEED.
Proof. split; [reflexivity|]. eexists. split; reflexivity. Qed.

(** A url that cannot be converted to a string ends its job where the job
    is announced: no request is made, nothing is found, and the upload is
    allowed. *)
Example replay_unconvertible_url :
  worker (parsesTo unconvertibleUrlDoc) noLength noLength "config"
         (fun _ => Resolved (Some [hit])) [0] (uploadOf "libs" "a/b/f.txt")
  = mkRun (inr (mkBeforeUploadResponse UPLOAD_PROCEED
                  "Artifact a/b/f.txt can be uploaded. No duplicates found."
                  (Some (mkRepoPath "libs" "a/b/f.txt" "libs:a/b/f.txt" false false))
                  []))
          [].
Proof. reflexivity. Qed.

(** ** Instances of the further properties *)

Lemma X1_witness :
  (getDirectoryPathFromPath "a/b/f.txt" ++ "/" ++ getFileNameFromPath "a/b/f.txt")%string
  = "a/b/f.txt".
Proof.
  apply (X1_directory_and_file_recompose "a/b/f.txt"). reflexivity.
Defined.

Lemma X2_witness :
  contains "/" (getFileNameFromPath "a/b/f.txt") = false
  /\ getFileNameFromPath "f.txt" = "f.txt".
Proof.
  split.
  - apply (X2_file_name_has_no_slash "a/b/f.txt").
  - apply (X2_file_name_has_no_slash "f.txt"). reflexivity.
Defined.

Lemma X4_witness :
  Config_constructor (parsesTo (encodeConfig twoRepoConfig)) "config"
  = inr twoRepoConfig.
Proof.
  apply (X4_documented_shape_round_trip (parsesTo (encodeConfig twoRepoConfig))
                                        "config" twoRepoConfig).
  - discriminate.
  - reflexivity.
  - constructor; [|constructor]. split; [reflexivity|].
    constructor; [right; reflexivity|].
    constructor; [left; exists "whole"; split; reflexivity|constructor].
Defined.

Lemma X5_witness :
  Config_constructor (parsesTo nullEntryDoc) "config"
  = inr (mkConfig [] (Some (JStr "warn"))).
Proof.
  apply (X5_null_discards_configuration (parsesTo nullEntryDoc) "config" nullEntryDoc).
  - discriminate.
  - reflexivity.
  - right. eexists. eexists. split; [reflexivity|]. split; [reflexivity|].
    left. right. left. reflexivity.
Defined.

Lemma X6_witness :
  (exists before after,
      repos (mkJPDConfig (JStr "a") [scopedRepo; mkRepoConfig (JStr "whole") None])
      = before ++ mkRepoConfig (JStr "whole") None :: after
      /\ name (mkRepoConfig (JStr "whole") None) = JStr "whole"
      /\ forall r, In r before -> name r <> JStr "whole")
  /\ getRepoConfig scopedJPD "whole" = None.
Proof.
  split.
  - apply (X6_getRepoConfig_finds_by_name
             (mkJPDConfig (JStr "a") [scopedRepo; mkRepoConfig (JStr "whole") None])
             "whole").
    reflexivity.
  - apply (X6_getRepoConfig_finds_by_name scopedJPD "whole").
    intros r [<-|[]]. discriminate.
Defined.

Lemma X7_witness :
  ~ In jpdA (getJPDsForRepo (mkConfig [jpdA; scopedJPD] None) "r")
  /\ In scopedJPD (getJPDsForRepo (mkConfig [jpdA; scopedJPD] None) "r").
Proof.
  destruct (X7_getJPDsForRepo_agrees_with_getRepoConfig
              (mkConfig [jpdA; scopedJPD] None) "r") as [Hin [Hempty _]].
  split.
  - apply Hempty. reflexivity.
  - apply Hin. split; [right; left; reflexivity|discriminate].
Defined.

Lemma X8_witness :
  (In (jpdA, None) [(jpdA, None); (scopedJPD, Some scopedRepo)]
   <-> In jpdA [jpdA; scopedJPD] /\ repos jpdA = [])
  /\ (In (scopedJPD, Some scopedRepo) [(jpdA, None); (scopedJPD, Some scopedRepo)]
      <-> In scopedJPD [jpdA; scopedJPD]
          /\ In scopedRepo (repos scopedJPD)
          /\ repoRelevant "immutable/x" scopedRepo = inr true).
Proof.
  destruct (X8_resolved_scopes_characterised
              [jpdA; scopedJPD] "immutable/x"
              [(jpdA, None); (scopedJPD, Some scopedRepo)] eq_refl) as [Hn Hs].
  split; [apply Hn|apply Hs].
Defined.

Lemma X9_witness :
  exists relevant',
    relevantJPDs [jpdA; scopedJPD] ("immutable" ++ "/" ++ "x/y") = inr relevant'
    /\ forall m, In m [(jpdA, None); (scopedJPD, Some scopedRepo)] -> In m relevant'.
Proof.
  apply (X9_relevance_covers_subdirectories
           [jpdA; scopedJPD] "immutable" "x/y"
           [(jpdA, None); (scopedJPD, Some scopedRepo)]).
  reflexivity.
Defined.

Lemma X11_witness :
  exists resp,
    outcome (worker (parsesTo scopedDoc) noLength noLength "config"
                    (fun _ => Rejected) [0] (uploadOf "r" "immutable/x/file.txt"))
    = inr resp.
Proof.
  destruct (X11_string_roots_never_throw
              (parsesTo scopedDoc) noLength noLength "config"
              (fun _ => Rejected) [0] (uploadOf "r" "immutable/x/file.txt")
              (mkConfig [scopedJPD] (Some (JStr "block"))) "block") as [_ H].
  - reflexivity.
  - constructor; [|constructor].
    constructor; [|constructor]. right. exists ["immutable"]. reflexivity.
  - reflexivity.
  - exact H.
Defined.

Lemma X12_witness :
  requests (worker (parsesTo scopedDoc) noLength noLength "config"
                   (fun _ => Resolved (Some [hit])) [0]
                   (uploadOf "r" "immutable/x/file.txt"))
  = requests (worker (parsesTo scopedDoc) noLength noLength "config"
                     (fun _ => Resolved (Some [hit])) [0]
                     (uploadOf "other" "immutable/x/file.txt"))
  /\ match outcome (worker (parsesTo scopedDoc) noLength noLength "config"
                           (fun _ => Resolved (Some [hit])) [0]
                           (uploadOf "r" "immutable/x/file.txt")),
           outcome (worker (parsesTo scopedDoc) noLength noLength "config"
                           (fun _ => Resolved (Some [hit])) [0]
                           (uploadOf "other" "immutable/x/file.txt")) with
     | inr resp, inr resp' => status resp = status resp' /\ message resp = message resp'
     | inl e, inl e' => e = e'
     | _, _ => False
     end.
Proof.
  eapply (X12_repository_key_is_not_consulted
            (parsesTo scopedDoc) noLength noLength "config"
            (fun _ => Resolved (Some [hit])) [0]
            (uploadOf "r" "immutable/x/file.txt")
            (uploadOf "other" "immutable/x/file.txt"));
    reflexivity.
Defined.

Lemma X13_witness :
  limit scopedQuery = Some 1
  /\ include scopedQuery = ["repo"; "path"; "name"]
  /\ (exists jpd, In jpd [scopedJPD]
                  /\ aqlEndpoint (url jpd) = inr "https://a/artifactory/api/search/aql")
  /\ exists before,
      criteriaOf scopedQuery
      = before ++ [nameCriteria (getFileNameFromPath "immutable/x/file.txt")].
Proof.
  apply (X13_every_request_is_bounded
           (parsesTo scopedDoc) noLength noLength "config" (fun _ => Rejected) [0]
           (uploadOf "r" "immutable/x/file.txt")
           (mkRepoPath "r" "immutable/x/file.txt" "r:immutable/x/file.txt" false false)
           (mkConfig [scopedJPD] (Some (JStr "block")))
           "https://a/artifactory/api/search/aql" scopedQuery).
  - reflexivity.
  - reflexivity.
  - left. reflexivity.
Defined.

Lemma X14_witness :
  relevantJPDs (getJPDs (mkConfig [firstJPD; secondJPD] (Some (JStr "block"))))
               (getDirectoryPathFromPath "test/path/file.txt")
  = inr (scopesInOrder [firstJPD; secondJPD]
                       (getDirectoryPathFromPath "test/path/file.txt"))
  /\ Forall2 (fun request m => aqlEndpoint (url (fst m)) = inr (fst request))
             (requests (worker (parsesTo twoTargetsDoc) noLength noLength "config"
                               firstHits [1; 0]
                               (uploadOf "test-repo" "test/path/file.txt")))
             (scopesInOrder [firstJPD; secondJPD]
                            (getDirectoryPathFromPath "test/path/file.txt")).
Proof.
  apply (X14_one_request_per_scope
           (parsesTo twoTargetsDoc) noLength noLength "config"
           firstHits [1; 0] (uploadOf "test-repo" "test/path/file.txt")
           (mkRepoPath "test-repo" "test/path/file.txt" "test-repo:test/path/file.txt"
                       false false)
           (mkConfig [firstJPD; secondJPD] (Some (JStr "block")))).
  - reflexivity.
  - reflexivity.
  - constructor; [|constructor; [|constructor]];
      (constructor; [|constructor]); right; exists ["test/path"]; reflexivity.
  - constructor; [|constructor; [|constructor]].
    + split; [exists "first.jfrog.io"; reflexivity|].
      constructor; [|constructor]. exists "test-repo". reflexivity.
    + split; [exists "second.jfrog.io"; reflexivity|].
      constructor; [|constructor]. exists "test-repo". reflexivity.
Defined.

Lemma X15_witness :
  startJob noLength noLength false "immutable/x/file.txt" (scopedJPD, Some scopedRepo)
  = startJob noLength noLength false "immutable/y/z/file.txt" (scopedJPD, Some scopedRepo)
  /\ exists q,
      startJob noLength noLength false "immutable/x/file.txt" (scopedJPD, Some scopedRepo)
      = Pending scopedJPD "https://a/artifactory/api/search/aql" q
      /\ criteriaOf q
         = [JObj [("repo", JStr "r")];
            JObj [("path", JObj [("$match", JStr "immutable*")])];
            nameCriteria (getFileNameFromPath "immutable/x/file.txt")].
Proof.
  apply (X15_scoped_query_lists_every_root
           noLength noLength scopedJPD (JStr "r") ["immutable"]
           "immutable/x/file.txt" "immutable/y/z/file.txt" "a" "r").
  - discriminate.
  - reflexivity.
  - reflexivity.
  - reflexivity.
Defined.

Lemma X16_witness :
  exists resp,
    outcome (worker (parsesTo twoTargetsDoc) noLength noLength "config"
                    (fun _ => Resolved (Some [testHit])) ([] ++ 1 :: [0])
                    (uploadOf "test-repo" "test/path/file.txt")) = inr resp
    /\ foundMessageFor "test/path/file.txt" secondJPD testHit = inr (message resp).
Proof.
  destruct (X16_first_settled_match_wins
              (parsesTo twoTargetsDoc) noLength noLength "config"
              (fun _ => Resolved (Some [testHit])) [] [0] 1
              (uploadOf "test-repo" "test/path/file.txt")
              (mkRepoPath "test-repo" "test/path/file.txt" "test-repo:test/path/file.txt"
                          false false)
              (mkConfig [firstJPD; secondJPD] (Some (JStr "block")))
              [(firstJPD, Some (mkRepoConfig (JStr "test-repo")
                                             (Some (JArr [JStr "test/path"]))));
               (secondJPD, Some (mkRepoConfig (JStr "test-repo")
                                              (Some (JArr [JStr "test/path"]))))]
              secondJPD "https://second.jfrog.io/artifactory/api/search/aql"
              (mkAqlQuery
                 (JObj [("$and",
                         JArr [JObj [("repo", JStr "test-repo")];
                               JObj [("path", JObj [("$match", JStr "test/path*")])];
                               JObj [("name", JObj [("$match", JStr "file.txt")])]])])
                 ["repo"; "path"; "name"] (Some 1))
              testHit [] eq_refl eq_refl eq_refl
              (fun k (H : In k []) => match H with end) eq_refl eq_refl)
    as [fm [Hfm [_ Hresp]]].
  destruct (Hresp (or_introl eq_refl)) as [resp [Hout Hmsg]].
  exists resp. split; [exact Hout|]. rewrite Hmsg. exact Hfm.
Defined.

Lemma X17_witness :
  (exists resp,
      outcome (worker (parsesTo scopedDoc) noLength noLength "config"
                      (fun _ => Rejected) [0] (uploadOf "r" "immutable/x/file.txt"))
      = inr resp
      /\ status resp = UPLOAD_PROCEED)
  <-> (forall i, In i [0] ->
                 jobMatches (startJobs noLength noLength false "immutable/x/file.txt"
                                       [(scopedJPD, Some scopedRepo)])
                            (fun _ => Rejected) i = false).
Proof.
  apply (X17_proceed_iff_nothing_found
           (parsesTo scopedDoc) noLength noLength "config" (fun _ => Rejected) [0]
           (uploadOf "r" "immutable/x/file.txt")
           (mkRepoPath "r" "immutable/x/file.txt" "r:immutable/x/file.txt" false false)
           (mkConfig [scopedJPD] (Some (JStr "block")))
           [(scopedJPD, Some scopedRepo)]);
    reflexivity.
Defined.

Lemma X18_witness :
  requests (worker (parsesTo twoTargetsDoc) noLength noLength "config"
                   firstHits [0; 1] (uploadOf "test-repo" "test/path/file.txt"))
  = requests (worker (parsesTo twoTargetsDoc) noLength noLength "config"
                     firstHits [1; 0] (uploadOf "test-repo" "test/path/file.txt"))
  /\ match outcome (worker (parsesTo twoTargetsDoc) noLength noLength "config"
                           firstHits [0; 1] (uploadOf "test-repo" "test/path/file.txt")),
           outcome (worker (parsesTo twoTargetsDoc) noLength noLength "config"
                           firstHits [1; 0] (uploadOf "test-repo" "test/path/file.txt")) with
     | inr resp, inr resp' =>
         status resp = status resp'
         /\ modifiedRepoPath resp = modifiedRepoPath resp'
     | inl e, inl e' => e = e'
     | _, _ => False
     end.
Proof.
  apply (X18_status_ignores_settlement_order
           (parsesTo twoTargetsDoc) noLength noLength "config" firstHits [0; 1] [1; 0]
           (uploadOf "test-repo" "test/path/file.txt")).
  apply perm_swap.
Defined.

Lemma X19_witness :
  worker unparsable noLength noLength "{not json" (fun _ => Resolved (Some [hit])) [0]
         (uploadOf "r" "immutable/x/file.txt")
  = mkRun (inr (mkBeforeUploadResponse UPLOAD_PROCEED
                  "Artifact path is not in configured search scope for any JPD. Upload allowed."
                  (Some (mkRepoPath "r" "immutable/x/file.txt" "r:immutable/x/file.txt"
                                    false false))
                  []))
          [].
Proof.
  apply (X19_unusable_configuration_allows_upload
           unparsable noLength noLength "{not json" (fun _ => Resolved (Some [hit])) [0]
           (uploadOf "r" "immutable/x/file.txt")).
  - reflexivity.
  - right. left. exists SyntaxError. reflexivity.
Defined.


Lemma X21_witness :
  loadConfig (fun _ => "config")
             (fun _ => GetResolved (Some (mkHttpResponse 200 (Some scopedDoc)))) "r"
  = "config"
  /\ Config_constructor (parsesTo scopedDoc)
       (loadConfig (fun _ => "config")
                   (fun _ => GetResolved (Some (mkHttpResponse 200 (Some scopedDoc)))) "r")
     = try_catch (configOfDocument scopedDoc) (fun _ => ret defaultConfig).
Proof.
  apply (X21_object_data_is_read_as_its_text
           (parsesTo scopedDoc) (fun _ => "config")
           (fun _ => GetResolved (Some (mkHttpResponse 200 (Some scopedDoc)))) "r"
           (mkHttpResponse 200 (Some scopedDoc)) scopedDoc);
    try reflexivity. discriminate.
Defined.

Lemma X22_witness :
  logWrites level_debug log_warn = true
  /\ logWrites level_debug log_info = true.
Proof.
  destruct (X22_log_thresholds_nested level_warn level_debug log_warn)
    as [Hmono _].
  destruct (X22_log_thresholds_nested level_debug level_debug log_info)
    as [_ [Hinfo _]].
  split.
  - apply Hmono; [simpl; lia|reflexivity].
  - apply Hinfo. reflexivity.
Defined.

Lemma X23_witness :
  status (mkBeforeUploadResponse UPLOAD_STOP
            "Artifact matching immutable/x/file.txt already exists in JPD: a:r/immutable/x/file.txt"
            (Some (mkRepoPath "r" "immutable/x/file.txt" "r:immutable/x/file.txt" false false))
            []) <> UPLOAD_UNSPECIFIED
  /\ message (mkBeforeUploadResponse UPLOAD_STOP
            "Artifact matching immutable/x/file.txt already exists in JPD: a:r/immutable/x/file.txt"
            (Some (mkRepoPath "r" "immutable/x/file.txt" "r:immutable/x/file.txt" false false))
            []) <> "".
Proof.
  apply (X23_response_is_never_blank
           (parsesTo scopedDoc) noLength noLength "config"
           (fun _ => Resolved (Some [hit])) [0] (uploadOf "r" "immutable/x/file.txt")).
  reflexivity.
Defined.
